(** * wabac-cors-proxy: a shallow embedding of [src/index.ts]

    The worker is one TypeScript file.  This development embeds

    - the platform's [Headers] class (WHATWG Fetch header lists), which
      the source uses everywhere but does not define;
    - the regular expression [TS_URL] and JavaScript's [String.match];
    - [handleRequest], [handleLiveWebProxy], [addCORSHeaders],
      [handleOptions], [fetchWithRedirCheck] and [notFound], line by line,

    and states the properties of the proxy pipeline over them. *)

From Stdlib Require Import Bool Arith ZArith Lia List Ascii String.
From Stdlib Require Import Permutation Sorted DecimalString.
Import ListNotations.

Local Open Scope list_scope.
Local Open Scope string_scope.

(* ================================================================== *)
(** ** JavaScript strings and truthiness *)

(** The only strings the worker sees are header names, header values and
    URLs: byte strings.  They are modelled as [string]. *)

(** 'A'..'Z' *)
Definition is_upper (c : ascii) : bool :=
  let n := nat_of_ascii c in (65 <=? n)%nat && (n <=? 90)%nat.

Definition lower_ascii (c : ascii) : ascii :=
  if is_upper c then ascii_of_nat (nat_of_ascii c + 32) else c.

(** Byte-lowercasing, as the platform applies to header names. *)
Fixpoint lower (s : string) : string :=
  match s with
  | EmptyString => EmptyString
  | String c r => String (lower_ascii c) (lower r)
  end.

(** [s.startsWith(p)] *)
Definition startsWith (s p : string) : bool := String.prefix p s.

(** JavaScript truthiness of a [string | null] value: [null] and the
    empty string are falsy, every other string is truthy. *)
Definition truthy (v : option string) : bool :=
  match v with
  | None => false
  | Some EmptyString => false
  | Some (String _ _) => true
  end.

(** [v || ""] *)
Definition or_empty (v : option string) : string :=
  match v with
  | Some s => s
  | None => EmptyString
  end.

(** [n.toString()] for an integer-valued number. *)
Definition toString (n : Z) : string :=
  NilZero.string_of_int (Z.to_int n).

(** [arr.includes(x)] on an array of strings and on an array of numbers. *)
Definition includes (l : list string) (x : string) : bool :=
  existsb (String.eqb x) l.

Definition includesZ (l : list Z) (x : Z) : bool :=
  existsb (Z.eqb x) l.

(* ================================================================== *)
(** ** The platform's [Headers] class

    A header list in the sense of the Fetch standard: an ordered list of
    name/value pairs; names are matched byte-case-insensitively; [get]
    combines the values of all headers of one name with [", "]; [set]
    overwrites the first header of that name and removes the others, or
    appends; iteration yields lowercased names in sorted order, one entry
    per name with the combined value (one entry per value for
    [set-cookie]).  [set] and [append] store the value normalised:
    without its leading and trailing HTTP white space.  (They refuse a
    value with a NUL, a CR or an LF left in it; no value the worker
    stores has one.)  The copy of a [Headers] object has the entries of
    its iteration, values as they are. *)

Module Headers.

Definition t := list (string * string).

Definition name_eqb (a b : string) : bool := String.eqb (lower a) (lower b).

Definition named (name : string) (p : string * string) : bool :=
  name_eqb (fst p) name.

(** [new Headers()] *)
Definition empty : t := [].

(** HTTP white space: tab, line feed, carriage return, space. *)
Definition is_http_whitespace (c : ascii) : bool :=
  let n := nat_of_ascii c in
  (n =? 9)%nat || (n =? 10)%nat || (n =? 13)%nat || (n =? 32)%nat.

Fixpoint strip_leading (s : string) : string :=
  match s with
  | EmptyString => EmptyString
  | String c r => if is_http_whitespace c then strip_leading r else s
  end.

Fixpoint strip_trailing (s : string) : string :=
  match s with
  | EmptyString => EmptyString
  | String c r =>
      match strip_trailing r with
      | EmptyString => if is_http_whitespace c then EmptyString else String c EmptyString
      | String c' r' => String c (String c' r')
      end
  end.

(** The value a header is stored with. *)
Definition normalize (value : string) : string :=
  strip_trailing (strip_leading value).

Definition values (h : t) (name : string) : list string :=
  map snd (filter (named name) h).

(** [h.get(name)] *)
Definition get (h : t) (name : string) : option string :=
  match values h name with
  | [] => None
  | vs => Some (String.concat ", " vs)
  end.

(** [h.has(name)] *)
Definition has (h : t) (name : string) : bool := existsb (named name) h.

(** [h.delete(name)] *)
Definition delete (name : string) (h : t) : t :=
  filter (fun p => negb (named name p)) h.

Fixpoint set_first (name value : string) (h : t) : t :=
  match h with
  | [] => []
  | p :: r =>
      if named name p then (fst p, value) :: delete name r
      else p :: set_first name value r
  end.

(** [h.set(name, value)] *)
Definition set (name value : string) (h : t) : t :=
  if has h name then set_first name (normalize value) h
  else (h ++ [(name, normalize value)])%list.

(** [h.append(name, value)] *)
Definition append (name value : string) (h : t) : t :=
  (h ++ [(name, normalize value)])%list.

Fixpoint insert_sorted (x : string) (l : list string) : list string :=
  match l with
  | [] => [x]
  | y :: r => if String.leb x y then x :: l else y :: insert_sorted x r
  end.

Definition sort (l : list string) : list string :=
  fold_right insert_sorted [] l.

(** The sorted set of lowercased names of a header list. *)
Definition names (h : t) : list string :=
  sort (nodup string_dec (map (fun p => lower (fst p)) h)).

Definition entries_of (h : t) (name : string) : list (string * string) :=
  if String.eqb name "set-cookie" then map (pair name) (values h name)
  else match get h name with
       | Some v => [(name, v)]
       | None => []
       end.

(** Iteration: [for (const [name, value] of h)], [h.entries()]. *)
Definition entries (h : t) : list (string * string) :=
  flat_map (entries_of h) (names h).

(** [h.keys()] *)
Definition keys (h : t) : list string := map fst (entries h).

(** [new Headers(init)] with [init] another [Headers] object: the
    entries of the iteration of [init], values as they are. *)
Definition copy (init : t) : t := entries init.

End Headers.

(* ================================================================== *)
(** ** The regular expression [TS_URL] and [String.match]

    [TS_URL] reads: one or more digits (group 1), then [id_/], then
    group 2: [http], an optional [s], a colon and every character up to
    the end of the line.

    [ts_match s] is [s.match(TS_URL)]: [None] when there is no match,
    otherwise the two capture groups [(m[1], m[2])] of the leftmost
    match.  At a fixed start position the greedy run of digits has to be
    the whole run (the next character must be [i]), and the optional [s]
    has to be taken when there is one (the next character must be [:]),
    so the match at a position is decided without backtracking. *)

Definition is_digit (c : ascii) : bool :=
  let n := nat_of_ascii c in (48 <=? n)%nat && (n <=? 57)%nat.

(** [.] matches every character but the line terminators. *)
Definition is_line_terminator (c : ascii) : bool :=
  let n := nat_of_ascii c in (n =? 10)%nat || (n =? 13)%nat.

Fixpoint span_digits (s : string) : string * string :=
  match s with
  | EmptyString => (EmptyString, EmptyString)
  | String c r =>
      if is_digit c then let (d, rest) := span_digits r in (String c d, rest)
      else (EmptyString, s)
  end.

Fixpoint dot_star (s : string) : string :=
  match s with
  | EmptyString => EmptyString
  | String c r => if is_line_terminator c then EmptyString else String c (dot_star r)
  end.

Fixpoint strip_prefix (p s : string) : option string :=
  match p, s with
  | EmptyString, _ => Some s
  | String a p', String b s' => if Ascii.eqb a b then strip_prefix p' s' else None
  | String _ _, EmptyString => None
  end.

(** The match of [TS_URL] that starts at the first character of [s]. *)
Definition ts_match_here (s : string) : option (string * string) :=
  let (digits, r) := span_digits s in
  match digits with
  | EmptyString => None
  | String _ _ =>
      match strip_prefix "id_/" r with
      | None => None
      | Some r1 =>
          match strip_prefix "http" r1 with
          | None => None
          | Some r2 =>
              match strip_prefix "s:" r2 with
              | Some r3 => Some (digits, "https:" ++ dot_star r3)
              | None =>
                  match strip_prefix ":" r2 with
                  | Some r3 => Some (digits, "http:" ++ dot_star r3)
                  | None => None
                  end
              end
          end
      end
  end.

Fixpoint ts_match (s : string) : option (string * string) :=
  match ts_match_here s with
  | Some m => Some m
  | None =>
      match s with
      | EmptyString => None
      | String _ r => ts_match r
      end
  end.

(* ================================================================== *)
(** ** Requests and responses *)

(** The bytes a [ReadableStream<Uint8Array>] delivers. *)
Definition Stream := list Byte.byte.

Module Request.
Record t := mk {
  url : string;
  method : string;
  headers : Headers.t;
  body : option Stream
}.
End Request.

(** What [fetch] resolves to. *)
Module Upstream.
Record t := mk {
  status : Z;
  statusText : string;
  headers : Headers.t;
  body : option Stream
}.
End Upstream.

(** The response object [fetchWithRedirCheck] hands back: the fetched
    response with the two properties the loop may attach to it,
    [resp.location] and [resp.ts]. *)
Module Response.
Record t := mk {
  status : Z;
  statusText : string;
  headers : Headers.t;
  body : option Stream;
  location : option string;
  ts : option string
}.

(** A response as [fetch] returns it: neither property is defined. *)
Definition of_fetch (u : Upstream.t) : t :=
  mk (Upstream.status u) (Upstream.statusText u) (Upstream.headers u)
     (Upstream.body u) None None.

Definition annotate (loc stamp : string) (r : t) : t :=
  mk (status r) (statusText r) (headers r) (body r) (Some loc) (Some stamp).
End Response.

(** The first argument of [new Response(body, init)]. *)
Inductive BodyInit :=
| BodyNull
| BodyText (s : string)
| BodyStream (b : Stream).

Definition body_of_stream (b : option Stream) : BodyInit :=
  match b with
  | Some s => BodyStream s
  | None => BodyNull
  end.

(** The response the worker answers with.  [statusText] is [None]
    when the code names none: the runtime then fills in its own. *)
Module Outgoing.
Record t := mk {
  status : Z;
  statusText : option string;
  headers : Headers.t;
  body : BodyInit
}.
End Outgoing.

(** [new Response(body, { headers, status, statusText })], where
    [headers] is the header list the constructor has filled from
    [init.headers].  A string body gives the response a [Content-Type]
    when that list has none.  (The constructor refuses a status outside
    200..599; [fetch] resolves to none.) *)
Definition new_Response (body : BodyInit) (headers : Headers.t)
    (status : Z) (statusText : option string) : Outgoing.t :=
  let headers' :=
    match body with
    | BodyText _ =>
        if Headers.has headers "Content-Type" then headers
        else Headers.append "Content-Type" "text/plain;charset=UTF-8" headers
    | _ => headers
    end in
  Outgoing.mk status statusText headers' body.

(** [new Headers({ k1: v1, ... })] *)
Definition headers_of_object (o : list (string * string)) : Headers.t :=
  fold_left (fun acc p => Headers.append (fst p) (snd p) acc) o Headers.empty.

(* ================================================================== *)
(** ** [JSON.stringify] of an object of strings *)

Definition dquote : ascii := ascii_of_nat 34.
Definition backslash : ascii := ascii_of_nat 92.

Definition hex_digit (n : nat) : ascii :=
  if (n <? 10)%nat then ascii_of_nat (48 + n) else ascii_of_nat (87 + n).

Definition json_escape_char (c : ascii) : string :=
  let n := nat_of_ascii c in
  if Ascii.eqb c dquote then String backslash (String dquote EmptyString)
  else if Ascii.eqb c backslash then String backslash (String backslash EmptyString)
  else if (n =? 8)%nat then String backslash "b"
  else if (n =? 9)%nat then String backslash "t"
  else if (n =? 10)%nat then String backslash "n"
  else if (n =? 12)%nat then String backslash "f"
  else if (n =? 13)%nat then String backslash "r"
  else if (n <? 32)%nat then
    String backslash ("u00" ++ String (hex_digit (n / 16)) (String (hex_digit (n mod 16)) EmptyString))
  else String c EmptyString.

Fixpoint json_escape (s : string) : string :=
  match s with
  | EmptyString => EmptyString
  | String c r => json_escape_char c ++ json_escape r
  end.

Definition json_string (s : string) : string :=
  String dquote (json_escape s ++ String dquote EmptyString).

(** [JSON.stringify(o)] for an object [o] whose values are strings. *)
Definition JSON_stringify (o : list (string * string)) : string :=
  "{" ++ String.concat ","
           (map (fun p => json_string (fst p) ++ ":" ++ json_string (snd p)) o)
      ++ "}".

(* ================================================================== *)
(** ** The platform: URL parsing and [fetch] *)

(** The arguments of one call of [fetch(url, { method, headers, body,
    redirect: "manual", cf: cfOpts })]. *)
Module FetchCall.
Record t := mk {
  url : string;
  method : string;
  headers : Headers.t;
  body : option Stream
}.
End FetchCall.

(** What the worker takes from its runtime.  [URL_origin s] is
    [new URL(s).origin], [None] when the constructor throws a
    [TypeError].  [fetch n call] is the result of the [n]-th call of
    [fetch] made for the request at hand, [None] when the promise
    rejects (a transport failure). *)
Record Platform := {
  URL_origin : string -> option string;
  fetch : nat -> FetchCall.t -> option Upstream.t
}.

(** How an [async] function ends. *)
Inductive Outcome (A : Type) : Type :=
| Returned (a : A)
| Threw
| Pending.

Arguments Returned {A} a.
Arguments Threw {A}.
Arguments Pending {A}.

Definition bind {A B : Type} (m : Outcome A) (k : A -> Outcome B) : Outcome B :=
  match m with
  | Returned a => k a
  | Threw => Threw
  | Pending => Pending
  end.

Notation "x <- m ;; k" := (bind m (fun x => k))
  (at level 61, m at next level, right associativity).

(* ================================================================== *)
(** ** [fetchWithRedirCheck] (lines 216-269) *)

Inductive Step :=
| Continue (url : string)
| Break (resp : Response.t).

(** [resp.status > 300 && resp.status < 400 && resp.status !== 304] *)
Definition redirect_status (status : Z) : bool :=
  (300 <? status)%Z && (status <? 400)%Z && negb (status =? 304)%Z.

(** [m && m2 && m[2] === m2[2]] *)
Definition same_capture (m m2 : option (string * string)) : bool :=
  match m, m2 with
  | Some (_, u), Some (_, u2) => String.eqb u u2
  | _, _ => false
  end.

(** One turn of the [while (true)] loop after [fetch] has resolved to
    [u] (lines 238-265): either [continue] with a new [url], or [break]
    with the response to return. *)
Definition inspect (noHttps : bool) (url : string) (u : Upstream.t) : Step :=
  let resp := Response.of_fetch u in
  if redirect_status (Response.status resp) then
    let location := Headers.get (Response.headers resp) "location" in
    if truthy location then
      let location := or_empty location in
      let m := ts_match location in
      let m2 := ts_match url in
      if same_capture m m2 then Continue location
      else
        let resp :=
          match m with
          | Some (m1, m2') => Response.annotate m2' m1 resp
          | None => resp
          end in
        if noHttps && startsWith location "https://" then Continue location
        else Break resp
    else Break resp
  else Break resp.

(** The loop, with the list of the calls of [fetch] it made.  [fuel]
    bounds the number of turns; the source has no bound. *)
Fixpoint redir_loop (P : Platform) (fuel n : nat) (noHttps : bool)
    (url method : string) (headers : Headers.t) (body : option Stream)
    : list FetchCall.t * Outcome Response.t :=
  match fuel with
  | O => ([], Pending)
  | S fuel' =>
      let call := FetchCall.mk url method headers body in
      match fetch P n call with
      | None => ([call], Threw)
      | Some u =>
          match inspect noHttps url u with
          | Continue url' =>
              let (calls, r) :=
                redir_loop P fuel' (S n) noHttps url' method headers body in
              (call :: calls, r)
          | Break resp => ([call], Returned resp)
          end
      end
  end.

(** Lines 224-227: the control header is read, and deleted when it is
    truthy. *)
Definition noHttpsOf (headers : Headers.t) : bool :=
  truthy (Headers.get headers "X-OWT-No-HTTPS").

Definition withoutNoHttps (headers : Headers.t) : Headers.t :=
  if noHttpsOf headers then Headers.delete "X-OWT-No-HTTPS" headers else headers.

Definition fetchWithRedirCheck (P : Platform) (fuel : nat)
    (url method : string) (headers : Headers.t) (body : option Stream)
    : list FetchCall.t * Outcome Response.t :=
  let noHttps := noHttpsOf headers in
  let headers := withoutNoHttps headers in
  redir_loop P fuel 0 noHttps url method headers body.

(* ================================================================== *)
(** ** [addCORSHeaders] (lines 136-171) *)

Definition allowHeaders : list string :=
  ["x-redirect-status"; "x-redirect-statusText"; "X-Proxy-Set-Cookie";
   "x-orig-location"; "x-orig-ts"].

Definition exposed (resp : Response.t) : list string :=
  (allowHeaders ++
   filter (fun header => negb (includes ["transfer-encoding"; "content-encoding"] header))
          (Headers.keys (Response.headers resp)))%list.

(** The [headers] argument is mutated in place; here it is returned. *)
Definition addCORSHeaders (headers : Headers.t) (request : Request.t)
    (resp : Response.t) : Headers.t :=
  let origin := Headers.get (Request.headers request) "Origin" in
  if negb (truthy origin) then headers
  else
    let headers := Headers.set "Access-Control-Allow-Origin" (or_empty origin) headers in
    let headers := Headers.set "Access-Control-Allow-Credentials" "true" headers in
    Headers.set "Access-Control-Expose-Headers" (String.concat "," (exposed resp)) headers.

(* ================================================================== *)
(** ** [handleLiveWebProxy] (lines 41-133) *)

(** Lines 45-47. *)
Definition normalizeProxyUrl (proxyUrl : string) : string :=
  if startsWith proxyUrl "//" then "https:" ++ proxyUrl else proxyUrl.

(** The test of lines 51-55. *)
Definition dropped (name : string) : bool :=
  startsWith name "cf-" || startsWith name "x-pywb-" || String.eqb name "x-proxy-referer".

(** Lines 49-59. *)
Definition copyRequestHeaders (request : Request.t) : Headers.t :=
  fold_left
    (fun proxyHeaders p =>
       if dropped (fst p) then proxyHeaders
       else Headers.set (fst p) (snd p) proxyHeaders)
    (Headers.entries (Request.headers request)) Headers.empty.

(** Lines 62-73. *)
Definition applyReferrer (P : Platform) (proxyUrl : string) (request : Request.t)
    (proxyHeaders : Headers.t) : Outcome Headers.t :=
  let referrer := Headers.get (Request.headers request) "x-proxy-referer" in
  if truthy referrer then
    let proxyHeaders :=
      Headers.set "Referer"
        (or_empty (Headers.get (Request.headers request) "x-proxy-referer"))
        proxyHeaders in
    match URL_origin P (or_empty referrer) with
    | None => Threw
    | Some origin =>
        match URL_origin P proxyUrl with
        | None => Threw
        | Some target =>
            if negb (String.eqb origin target) then
              Returned (Headers.set "Sec-Fetch-Site" "cross-origin"
                          (Headers.set "Origin" origin proxyHeaders))
            else
              Returned (Headers.set "Sec-Fetch-Site" "same-origin"
                          (Headers.delete "Origin" proxyHeaders))
        end
    end
  else Returned proxyHeaders.

(** Lines 74-78. *)
Definition applyUserAgent (request : Request.t) (proxyHeaders : Headers.t) : Headers.t :=
  let ua := Headers.get (Request.headers request) "x-proxy-user-agent" in
  if truthy ua then
    Headers.set "User-Agent" (or_empty ua) (Headers.delete "x-proxy-user-agent" proxyHeaders)
  else proxyHeaders.

(** Lines 81-84. *)
Definition applyCookie (request : Request.t) (proxyHeaders : Headers.t) : Headers.t :=
  let cookie := Headers.get (Request.headers request) "x-proxy-cookie" in
  if truthy cookie then Headers.set "Cookie" (or_empty cookie) proxyHeaders
  else proxyHeaders.

(** Lines 49-84: the header mapping handed to [fetchWithRedirCheck]. *)
Definition proxyHeadersOf (P : Platform) (proxyUrl : string) (request : Request.t)
    : Outcome Headers.t :=
  proxyHeaders <- applyReferrer P proxyUrl request (copyRequestHeaders request) ;;
  let proxyHeaders := applyUserAgent request proxyHeaders in
  let proxyHeaders := Headers.delete "host" proxyHeaders in
  Returned (applyCookie request proxyHeaders).

(** Lines 86-87. *)
Definition proxyBodyOf (request : Request.t) : option Stream :=
  if String.eqb (Request.method request) "GET" || String.eqb (Request.method request) "HEAD"
  then None else Request.body request.

Definition redirectStatuses : list Z := [301; 302; 303; 307; 308]%Z.

(** Lines 103-120: the headers after the redirect block, and [status]. *)
Definition collapseRedirect (headers : Headers.t) (resp : Response.t) : Headers.t * Z :=
  if includesZ redirectStatuses (Response.status resp) then
    let headers := Headers.set "x-redirect-status" (toString (Response.status resp)) headers in
    let headers := Headers.set "x-redirect-statusText" (Response.statusText resp) headers in
    let headers :=
      if truthy (Headers.get (Response.headers resp) "location") then
        Headers.set "x-orig-location"
          (or_empty (Headers.get (Response.headers resp) "location")) headers
      else if truthy (Response.location resp) then
        Headers.set "x-orig-location" (or_empty (Response.location resp)) headers
      else headers in
    let headers :=
      if truthy (Response.ts resp) then
        Headers.set "x-orig-ts" (or_empty (Response.ts resp)) headers
      else headers in
    (headers, 200%Z)
  else (headers, Response.status resp).

Definition errorBody (status : Z) : string :=
  "Sorry, this page was not found or could not be loaded: (Error " ++ toString status ++ ")".

(** Lines 96-101. *)
Definition copyResponseHeaders (resp : Response.t) : Headers.t :=
  let headers := Headers.copy (Response.headers resp) in
  let set_cookie := Headers.get (Response.headers resp) "set-cookie" in
  if truthy set_cookie then Headers.set "X-Proxy-Set-Cookie" (or_empty set_cookie) headers
  else headers.

(** Lines 96-132: the response built from the request and from what
    [fetchWithRedirCheck] returned. *)
Definition respond (request : Request.t) (resp : Response.t) : Outgoing.t :=
  let headers := copyResponseHeaders resp in
  let statusText := Response.statusText resp in
  let (headers, status) := collapseRedirect headers resp in
  let headers := addCORSHeaders headers request resp in
  let respBody :=
    if (400 <=? status)%Z && negb (truthy (Headers.get (Response.headers resp) "memento-datetime"))
    then BodyText (errorBody status)
    else body_of_stream (Response.body resp) in
  new_Response respBody (Headers.copy headers) status (Some statusText).

Definition handleLiveWebProxy (P : Platform) (fuel : nat) (proxyUrl : string)
    (request : Request.t) : list FetchCall.t * Outcome Outgoing.t :=
  let proxyUrl := normalizeProxyUrl proxyUrl in
  match proxyHeadersOf P proxyUrl request with
  | Returned proxyHeaders =>
      let body := proxyBodyOf request in
      let (calls, r) :=
        fetchWithRedirCheck P fuel proxyUrl (Request.method request) proxyHeaders body in
      (calls, resp <- r ;; Returned (respond request resp))
  | Threw => ([], Threw)
  | Pending => ([], Pending)
  end.

(* ================================================================== *)
(** ** [notFound] (lines 272-277) and [handleOptions] (lines 174-213) *)

Definition CORS_ALLOWED_ORIGINS : option (list string) :=
  Some ["http://localhost:10001"; "http://localhost:8000";
        "http://localhost:3000"; "https://proxy-test.slax.dev"].

Definition notFound (err : string) (status : Z) : Outgoing.t :=
  new_Response (BodyText (JSON_stringify [("error", err)]))
    (headers_of_object [("Content-Type", "application/json")]) status None.

(** [notFound()] *)
Definition notFound_default : Outgoing.t := notFound "not found" 404.

(** [CORS_ALLOWED_ORIGINS && CORS_ALLOWED_ORIGINS.length && origin &&
    !CORS_ALLOWED_ORIGINS.includes(origin)] *)
Definition originRefused (allowed : option (list string)) (origin : option string) : bool :=
  match allowed with
  | None => false
  | Some l =>
      negb (Nat.eqb (List.length l) 0) && truthy origin && negb (includes l (or_empty origin))
  end.

(** [handleOptions] for a given value of the constant
    [CORS_ALLOWED_ORIGINS]. *)
Definition handleOptionsWith (allowed : option (list string)) (request : Request.t)
    : Outgoing.t :=
  let origin := Headers.get (Request.headers request) "Origin" in
  let method := Headers.get (Request.headers request) "Access-Control-Request-Method" in
  let headers := Headers.get (Request.headers request) "Access-Control-Request-Headers" in
  if originRefused allowed origin then notFound "origin not allowed" 403
  else
    match origin, method, headers with
    | Some origin, Some method, Some headers =>
        new_Response BodyNull
          (headers_of_object
             [("Access-Control-Allow-Method", method);
              ("Access-Control-Allow-Headers", headers);
              ("Access-Control-Allow-Origin", origin);
              ("Access-Control-Allow-Credentials", "true")])
          200 None
    | _, _, _ =>
        new_Response BodyNull
          (headers_of_object [("Allow", "GET, HEAD, POST, OPTIONS")])
          200 None
    end.

Definition handleOptions (request : Request.t) : Outgoing.t :=
  handleOptionsWith CORS_ALLOWED_ORIGINS request.

(* ================================================================== *)
(** ** A runtime to evaluate the worker on *)

(** [scheme://host] of an [http(s)] URL: what [new URL(s).origin] gives
    for the URLs of the examples below.  Any other string is refused. *)
Fixpoint up_to_slash (s : string) : string :=
  match s with
  | EmptyString => EmptyString
  | String c r => if Ascii.eqb c "/"%char then EmptyString else String c (up_to_slash r)
  end.

Definition sample_origin (s : string) : option string :=
  match strip_prefix "https://" s with
  | Some r => Some ("https://" ++ up_to_slash r)
  | None =>
      match strip_prefix "http://" s with
      | Some r => Some ("http://" ++ up_to_slash r)
      | None => None
      end
  end.

(** A network that answers every call with the same response. *)
Definition constant_net (u : Upstream.t) : Platform :=
  {| URL_origin := sample_origin; fetch := fun _ _ => Some u |}.

(** A network that answers the [n]-th call with the [n]-th response of
    a script, and fails once the script is over. *)
Definition scripted_net (script : list Upstream.t) : Platform :=
  {| URL_origin := sample_origin; fetch := fun n _ => nth_error script n |}.

(** ** Sample inputs *)

Definition capture_a_jan : string :=
  "https://arch.test/20200101000000id_/https://site.test/a.html".

Definition capture_a_feb : string :=
  "https://arch.test/20200102000000id_/https://site.test/a.html".

(** A [305 Use Proxy] that points at another capture of the same page. *)
Definition use_proxy_305 : Upstream.t :=
  Upstream.mk 305 "Use Proxy" [("Location", capture_a_feb)] None.

(** A [302 Found] that points at another capture of the same page. *)
Definition found_302_same_capture : Upstream.t :=
  Upstream.mk 302 "Found" [("Location", capture_a_feb)] None.

Definition ok_200 : Upstream.t :=
  Upstream.mk 200 "OK" [("Content-Type", "text/html")] None.

Definition plain_get : Request.t :=
  Request.mk "https://proxy.test/proxy/https://site.test/a.html" "GET"
    [("Accept", "*/*")] None.

(** An upstream answer that brings its own CORS header. *)
Definition ok_200_cors : Response.t :=
  Response.mk 200 "OK" [("Access-Control-Allow-Origin", "*")] None None None.

(** A redirect whose [Location] header is there and empty. *)
Definition found_302_empty_location : Response.t :=
  Response.mk 302 "Found" [("Location", EmptyString)] None None None.

Definition found_302_b : Response.t :=
  Response.mk 302 "Found" [("Location", "https://site.test/b.html")] None None None.

(** A request whose [Origin] header is there and empty. *)
Definition empty_origin_get : Request.t :=
  Request.mk "https://proxy.test/proxy/https://site.test/a.html" "GET"
    [("Origin", EmptyString)] None.

Definition example_origin_get : Request.t :=
  Request.mk "https://proxy.test/proxy/https://site.test/a.html" "GET"
    [("Origin", "https://example.com")] None.

Definition ok_200_gzip : Response.t :=
  Response.mk 200 "OK"
    [("Content-Type", "text/html"); ("Content-Encoding", "gzip"); ("ETag", "abc")]
    None None None.

Definition page_bytes : Stream := [Byte.x3c; Byte.x70; Byte.x3e].

(** A [404] whose [Memento-Datetime] header is there and empty. *)
Definition not_found_404_empty_memento : Response.t :=
  Response.mk 404 "Not Found" [("Memento-Datetime", EmptyString)]
    (Some page_bytes) None None.

Definition not_found_404 : Response.t :=
  Response.mk 404 "Not Found" [("Content-Type", "text/html")]
    (Some page_bytes) None None.

Definition not_found_404_memento : Response.t :=
  Response.mk 404 "Not Found" [("Memento-Datetime", "Wed, 01 Jan 2020 00:00:00 GMT")]
    (Some page_bytes) None None.

(** The request of the specification's cookie example. *)
Definition cookie_request : Request.t :=
  Request.mk "https://proxy.test/proxy/https://site.test/a.html" "GET"
    [("X-Proxy-Cookie", "session=abc")] None.

(** A request whose [X-Proxy-Referer] header is there and empty. *)
Definition empty_referer_get : Request.t :=
  Request.mk "https://proxy.test/proxy/https://site.test/a.html" "GET"
    [("X-Proxy-Referer", EmptyString)] None.

Definition cross_site_get : Request.t :=
  Request.mk "https://proxy.test/proxy/https://site.test/a.html" "GET"
    [("X-Proxy-Referer", "https://other.test/index.html"); ("Origin", "https://app.test")]
    None.

Definition same_site_get : Request.t :=
  Request.mk "https://proxy.test/proxy/https://site.test/a.html" "GET"
    [("X-Proxy-Referer", "https://site.test/index.html"); ("Origin", "https://app.test")]
    None.

Definition form_bytes : Stream := [Byte.x61; Byte.x3d; Byte.x31].

Definition form_post : Request.t :=
  Request.mk "https://proxy.test/proxy/https://site.test/form" "POST"
    [("Content-Type", "application/x-www-form-urlencoded")] (Some form_bytes).

Definition get_with_body : Request.t :=
  Request.mk "https://proxy.test/proxy/https://site.test/a.html" "GET"
    [("Accept", "*/*")] (Some form_bytes).

(** Three [OPTIONS] requests: from an origin that is not on the list, a
    preflight from one that is, and one without CORS headers; and one
    whose [Origin] header is there and empty. *)
Definition options_evil : Request.t :=
  Request.mk "https://proxy.test/proxy/https://site.test/a.html" "OPTIONS"
    [("Origin", "https://evil.test");
     ("Access-Control-Request-Method", "POST");
     ("Access-Control-Request-Headers", "x-proxy-cookie")] None.

Definition options_preflight : Request.t :=
  Request.mk "https://proxy.test/proxy/https://site.test/a.html" "OPTIONS"
    [("Origin", "http://localhost:3000");
     ("Access-Control-Request-Method", "POST");
     ("Access-Control-Request-Headers", "x-proxy-cookie")] None.

Definition options_plain : Request.t :=
  Request.mk "https://proxy.test/proxy/https://site.test/a.html" "OPTIONS"
    [("Accept", "*/*")] None.

Definition options_empty_origin : Request.t :=
  Request.mk "https://proxy.test/proxy/https://site.test/a.html" "OPTIONS"
    [("Origin", EmptyString);
     ("Access-Control-Request-Method", "POST");
     ("Access-Control-Request-Headers", "x-proxy-cookie")] None.

(** No header of [headers] has a name the loop of lines 50-59 drops. *)
Definition clean (headers : Headers.t) : Prop :=
  forall name, dropped (lower name) = true -> Headers.get headers name = None.

Definition found_302_b_upstream : Upstream.t :=
  Upstream.mk 302 "Found" [("Location", "https://site.test/b.html")] None.

(* ================================================================== *)
(** ** [handleRequest] (lines 23-38) *)

(** The match of [/(https?:\/)([^/])/] that starts at the first
    character of [s]: group 1, and the rest of [s] from group 2 on.  The
    optional [s] has to be taken when there is one (the next character
    must be a colon). *)
Definition single_slash_here (s : string) : option (string * string) :=
  match strip_prefix "http" s with
  | None => None
  | Some r =>
      match strip_prefix "s:/" r with
      | Some (String c r') =>
          if Ascii.eqb c "/"%char then None else Some ("https:/", String c r')
      | Some EmptyString => None
      | None =>
          match strip_prefix ":/" r with
          | Some (String c r') =>
              if Ascii.eqb c "/"%char then None else Some ("http:/", String c r')
          | _ => None
          end
      end
  end.

(** [url.replace(/(https?:\/)([^/])/, "$1/$2")]: the leftmost match,
    and only that one, gets a second slash. *)
Fixpoint fix_single_slash (s : string) : string :=
  match single_slash_here s with
  | Some (scheme, rest) => scheme ++ "/" ++ rest
  | None =>
      match s with
      | EmptyString => EmptyString
      | String c r => String c (fix_single_slash r)
      end
  end.

(** The first occurrence of a non-empty [sep] in [s]: what is before
    it, and what is after it. *)
Fixpoint find_sub (sep s : string) : option (string * string) :=
  match strip_prefix sep s with
  | Some rest => Some (EmptyString, rest)
  | None =>
      match s with
      | EmptyString => None
      | String c r =>
          match find_sub sep r with
          | Some (before, rest) => Some (String c before, rest)
          | None => None
          end
      end
  end.

(** [s.split(sep, 2)[1]], [None] for [undefined].  An empty separator
    splits [s] into its characters. *)
Definition split_second (sep s : string) : option string :=
  match sep with
  | EmptyString =>
      match s with
      | String _ (String c _) => Some (String c EmptyString)
      | _ => None
      end
  | String _ _ =>
      match find_sub sep s with
      | None => None
      | Some (_, rest) =>
          match find_sub sep rest with
          | Some (piece, _) => Some piece
          | None => Some rest
          end
      end
  end.

(** [s.slice(n)] for [n >= 0] *)
Fixpoint slice (n : nat) (s : string) : string :=
  match n, s with
  | O, _ => s
  | S n', String _ r => slice n' r
  | S _, EmptyString => EmptyString
  end.

(** [handleRequest].  [URL_pathname s] is [new URL(s).pathname], [None]
    when the constructor throws; it is the runtime's, as [URL_origin]
    is.  Taking [.slice] of [undefined] throws. *)
Definition handleRequest (P : Platform) (URL_pathname : string -> option string)
    (fuel : nat) (request : Request.t) : list FetchCall.t * Outcome Outgoing.t :=
  let url := fix_single_slash (Request.url request) in
  match URL_pathname url with
  | None => ([], Threw)
  | Some requestPath =>
      if String.eqb (Request.method request) "OPTIONS" then
        ([], Returned (handleOptions request))
      else if startsWith requestPath "/proxy/" then
        match split_second (or_empty (Headers.get (Request.headers request) "host")) url with
        | None => ([], Threw)
        | Some pathWithQuery =>
            handleLiveWebProxy P fuel (slice (String.length "/proxy/") pathWithQuery) request
        end
      else ([], Returned notFound_default)
  end.

(** The path of an [http(s)] URL up to the query: what
    [new URL(s).pathname] gives for the URLs of the examples. *)
Fixpoint up_to_query (s : string) : string :=
  match s with
  | EmptyString => EmptyString
  | String c r =>
      if Ascii.eqb c "?"%char || Ascii.eqb c "#"%char then EmptyString
      else String c (up_to_query r)
  end.

Fixpoint from_slash (s : string) : string :=
  match s with
  | EmptyString => "/"
  | String c r => if Ascii.eqb c "/"%char then s else from_slash r
  end.

Definition sample_pathname (s : string) : option string :=
  match strip_prefix "https://" s with
  | Some r => Some (up_to_query (from_slash r))
  | None =>
      match strip_prefix "http://" s with
      | Some r => Some (up_to_query (from_slash r))
      | None => None
      end
  end.


(** Every character of [s] passes the test [f]. *)
Fixpoint all_chars (f : ascii -> bool) (s : string) : bool :=
  match s with
  | EmptyString => true
  | String c r => f c && all_chars f r
  end.


(** A request that asks for [https] redirects to be followed. *)
Definition upgrade_headers : Headers.t :=
  [("accept", "*/*"); ("x-owt-no-https", "1")].

Definition moved_301_https : Upstream.t :=
  Upstream.mk 301 "Moved Permanently" [("Location", "https://site.test/a.html")] None.


Definition browser_get : Request.t :=
  Request.mk "https://proxy.test/proxy/https://site.test/a.html" "GET"
    [("Accept-Language", "en"); ("CF-Connecting-IP", "203.0.113.7");
     ("Host", "proxy.test"); ("Origin", "https://app.test");
     ("X-Proxy-User-Agent", "Replay/1.0"); ("User-Agent", "Mozilla/5.0")] None.


Definition ok_200_cookies : Response.t :=
  Response.mk 200 "OK"
    [("Set-Cookie", "a=1"); ("Content-Type", "text/html"); ("Set-Cookie", "b=2");
     ("X-Frame-Options", "DENY")]
    (Some page_bytes) None None.

(** A redirect from one capture to a capture of another page. *)
Definition found_302_other_capture : Upstream.t :=
  Upstream.mk 302 "Found"
    [("Location", "https://arch.test/20200103000000id_/https://site.test/b.html")] None.


Definition proxied_get : Request.t :=
  Request.mk "https://proxy.test/proxy/https://site.test/a.html?x=1" "GET"
    [("Host", "proxy.test"); ("Accept", "*/*")] None.

(** A request for a page of the proxy's own host. *)
Definition self_proxied_get : Request.t :=
  Request.mk "https://proxy.test/proxy/https://proxy.test/a.html" "GET"
    [("Host", "proxy.test"); ("Accept", "*/*")] None.

Definition wrong_host_get : Request.t :=
  Request.mk "https://proxy.test/proxy/https://site.test/a.html" "GET"
    [("Host", "other.test")] None.

Definition no_host_get : Request.t :=
  Request.mk "https://proxy.test/proxy/https://site.test/a.html" "GET"
    [("Accept", "*/*")] None.

Definition unrouted_get : Request.t :=
  Request.mk "https://proxy.test/favicon.ico" "GET" [("Host", "proxy.test")] None.


Definition cookie_override_get : Request.t :=
  Request.mk "https://proxy.test/proxy/https://site.test/a.html" "GET"
    [("Cookie", "proxy_session=1"); ("X-Proxy-Cookie", "session=abc")] None.


Definition bad_referer_get : Request.t :=
  Request.mk "https://proxy.test/proxy/https://site.test/a.html" "GET"
    [("X-Proxy-Referer", "about blank")] None.


(** A redirect whose status text ends with a space, and whose
    [Location] came twice, the second time empty. *)
Definition found_302_padded : Response.t :=
  Response.mk 302 "Found "
    [("Location", "https://site.test/b.html"); ("Location", EmptyString)]
    None None None.


(** A request whose [Origin] came twice, the second time empty. *)
Definition twice_origin_get : Request.t :=
  Request.mk "https://proxy.test/proxy/https://site.test/a.html" "GET"
    [("Origin", "https://a.test"); ("Origin", EmptyString)] None.


(** A request whose [X-Proxy-Referer] came twice, the second time
    empty. *)
Definition twice_referer_get : Request.t :=
  Request.mk "https://proxy.test/proxy/https://site.test/a.html" "GET"
    [("X-Proxy-Referer", "https://other.test/i"); ("X-Proxy-Referer", EmptyString)]
    None.


(** An answer whose [Set-Cookie] came twice, the second time empty. *)
Definition ok_200_cookie_twice : Response.t :=
  Response.mk 200 "OK" [("Set-Cookie", "a=1"); ("Set-Cookie", EmptyString)]
    None None None.


(** A request three of whose headers came twice, the second time
    empty. *)
Definition twice_values_get : Request.t :=
  Request.mk "https://proxy.test/proxy/https://site.test/a.html" "GET"
    [("Accept", "text/html"); ("Accept", EmptyString);
     ("X-Proxy-User-Agent", "Replay/1.0"); ("X-Proxy-User-Agent", EmptyString);
     ("X-Proxy-Cookie", "a=1"); ("X-Proxy-Cookie", EmptyString)] None.


(** The same redirect with its [Location] sent twice, the second time
    empty. *)
Definition found_302_other_capture_twice : Upstream.t :=
  Upstream.mk 302 "Found"
    [("Location", "https://arch.test/20200103000000id_/https://site.test/b.html");
     ("Location", EmptyString)] None.


(* ================================================================== *)
(** * Facts about the embedding *)

(** ** Lowercasing and name matching *)

Lemma lower_ascii_idem (c : ascii) : lower_ascii (lower_ascii c) = lower_ascii c.
Proof.
  destruct c as [[] [] [] [] [] [] [] []]; reflexivity.
Qed.

Lemma lower_idem (s : string) : lower (lower s) = lower s.
Proof.
  induction s as [|c r IH]; simpl; [reflexivity|].
  now rewrite lower_ascii_idem, IH.
Qed.

Lemma prefix_nil (s : string) : String.prefix EmptyString s = true.
Proof. destruct s; reflexivity. Qed.

Module HeadersFacts.
Import Headers.

Lemma name_eqb_refl a : name_eqb a a = true.
Proof. apply String.eqb_refl. Qed.

Lemma name_eqb_sym a b : name_eqb a b = name_eqb b a.
Proof. apply String.eqb_sym. Qed.

Lemma name_eqb_true a b : name_eqb a b = true <-> lower a = lower b.
Proof. apply String.eqb_eq. Qed.

Lemma name_eqb_lower_l a b : name_eqb (lower a) b = name_eqb a b.
Proof. unfold name_eqb. now rewrite lower_idem. Qed.

(** Two names that match select the same headers. *)
Lemma named_congr n m p : name_eqb n m = true -> named n p = named m p.
Proof.
  unfold named, name_eqb. intros H. apply String.eqb_eq in H. now rewrite H.
Qed.

Lemma named_trans n m p :
  named n p = true -> name_eqb n m = false -> named m p = false.
Proof.
  unfold named, name_eqb. intros H1 H2.
  apply String.eqb_eq in H1. now rewrite H1.
Qed.

Lemma has_values h n : has h n = false <-> values h n = [].
Proof.
  unfold has, values.
  induction h as [|p r IH]; simpl; [tauto|].
  destruct (named n p); simpl; [|exact IH].
  split; discriminate.
Qed.

Lemma get_None_values h n : get h n = None <-> values h n = [].
Proof.
  unfold get. destruct (values h n); split; congruence.
Qed.

Lemma has_get h n : has h n = false <-> get h n = None.
Proof. rewrite has_values, get_None_values. tauto. Qed.

Lemma has_true_get h n : has h n = true <-> get h n <> None.
Proof.
  rewrite <- has_get. destruct (has h n); split; congruence.
Qed.

Lemma has_congr h n m : name_eqb n m = true -> has h n = has h m.
Proof.
  intros H. unfold has. induction h as [|p r IH]; simpl; [reflexivity|].
  now rewrite IH, (named_congr n m p H).
Qed.

Lemma values_congr h n m : name_eqb n m = true -> values h n = values h m.
Proof.
  intros H. unfold values. induction h as [|p r IH]; simpl; [reflexivity|].
  rewrite (named_congr n m p H). destruct (named m p); simpl; now rewrite IH.
Qed.

(** [get] does not see the case of the name it is asked for. *)
Lemma get_congr h n m : name_eqb n m = true -> get h n = get h m.
Proof. intros H. unfold get. now rewrite (values_congr h n m H). Qed.

Lemma values_app h1 h2 n : values (h1 ++ h2)%list n = (values h1 n ++ values h2 n)%list.
Proof. unfold values. now rewrite filter_app, map_app. Qed.

Lemma values_cons p r m :
  values (p :: r) m = if named m p then snd p :: values r m else values r m.
Proof. unfold values. simpl. now destruct (named m p). Qed.

Lemma values_delete n h m :
  values (delete n h) m = if name_eqb n m then [] else values h m.
Proof.
  induction h as [|p r IH]; simpl.
  - now destruct (name_eqb n m).
  - rewrite values_cons.
    destruct (named n p) eqn:Hn; simpl; [|rewrite values_cons]; rewrite IH;
      destruct (name_eqb n m) eqn:Hnm.
    + reflexivity.
    + now rewrite (named_trans n m p Hn Hnm).
    + now rewrite <- (named_congr n m p Hnm), Hn.
    + reflexivity.
Qed.

Lemma values_set_first n v h m :
  has h n = true ->
  values (set_first n v h) m = if name_eqb n m then [v] else values h m.
Proof.
  induction h as [|p r IH]; simpl; [discriminate|].
  rewrite (values_cons p r m).
  destruct (named n p) eqn:Hn; simpl; intros Hh.
  - rewrite values_cons, values_delete. unfold named at 1. simpl.
    fold (named m p).
    destruct (name_eqb n m) eqn:Hnm.
    + now rewrite <- (named_congr n m p Hnm), Hn.
    + now rewrite (named_trans n m p Hn Hnm).
  - rewrite values_cons, (IH Hh).
    destruct (name_eqb n m) eqn:Hnm.
    + now rewrite <- (named_congr n m p Hnm), Hn.
    + reflexivity.
Qed.

Lemma values_set n v h m :
  values (set n v h) m = if name_eqb n m then [normalize v] else values h m.
Proof.
  unfold set. destruct (has h n) eqn:Hh.
  - now apply values_set_first.
  - rewrite values_app, values_cons. unfold named. simpl.
    rewrite (name_eqb_sym n m).
    destruct (name_eqb m n) eqn:Hnm.
    + rewrite (has_congr h n m) in Hh by now rewrite name_eqb_sym.
      apply has_values in Hh. now rewrite Hh.
    + unfold values. simpl. now rewrite app_nil_r.
Qed.

(** The three equations of a finite map. *)
Lemma get_empty n : get empty n = None.
Proof. reflexivity. Qed.

Lemma get_set n v h m :
  get (set n v h) m = if name_eqb n m then Some (normalize v) else get h m.
Proof.
  unfold get. rewrite values_set. now destruct (name_eqb n m).
Qed.

Lemma get_delete n h m :
  get (delete n h) m = if name_eqb n m then None else get h m.
Proof.
  unfold get. rewrite values_delete. now destruct (name_eqb n m).
Qed.

Lemma get_set_same n v h : get (set n v h) n = Some (normalize v).
Proof. now rewrite get_set, name_eqb_refl. Qed.

(** *** Iteration *)

Lemma insert_sorted_perm x l : Permutation (insert_sorted x l) (x :: l).
Proof.
  induction l as [|y r IH]; simpl; [apply Permutation_refl|].
  destruct (String.leb x y); [apply Permutation_refl|].
  eapply Permutation_trans; [apply perm_skip, IH | apply perm_swap].
Qed.

Lemma sort_perm l : Permutation (sort l) l.
Proof.
  induction l as [|x r IH]; simpl; [apply perm_nil|].
  eapply Permutation_trans; [apply insert_sorted_perm | now apply perm_skip].
Qed.

Lemma names_In h k :
  In k (names h) <-> exists p, In p h /\ lower (fst p) = k.
Proof.
  unfold names. split.
  - intros H. apply (Permutation_in _ (sort_perm _)) in H.
    apply nodup_In, in_map_iff in H. destruct H as [p [E I]]. now exists p.
  - intros [p [I E]].
    apply (Permutation_in _ (Permutation_sym (sort_perm _))).
    apply nodup_In, in_map_iff. now exists p.
Qed.

Lemma names_NoDup h : NoDup (names h).
Proof.
  unfold names.
  apply (Permutation_NoDup (Permutation_sym (sort_perm _))), NoDup_nodup.
Qed.

Lemma names_lower h k : In k (names h) -> lower k = k.
Proof.
  intros H. apply names_In in H. destruct H as [p [_ E]].
  rewrite <- E. apply lower_idem.
Qed.

Lemma has_names h n : has h n = true <-> In (lower n) (names h).
Proof.
  rewrite names_In. unfold has. rewrite existsb_exists.
  split; intros [p [I E]]; exists p; split; trivial.
  - now apply name_eqb_true.
  - now apply name_eqb_true.
Qed.

Lemma values_flat_map (A : Type) (f : A -> t) l n :
  values (flat_map f l) n = flat_map (fun k => values (f k) n) l.
Proof.
  induction l as [|k r IH]; simpl; [reflexivity|].
  now rewrite values_app, IH.
Qed.

Lemma values_pairs k vs n :
  values (map (pair k) vs) n = if name_eqb k n then vs else [].
Proof.
  induction vs as [|v r IH]; simpl.
  - now destruct (name_eqb k n).
  - rewrite values_cons, IH. unfold named. simpl.
    now destruct (name_eqb k n).
Qed.

Lemma get_entries_of h k n :
  name_eqb k n = true -> get (entries_of h k) n = get h k.
Proof.
  intros H. unfold entries_of.
  destruct (String.eqb k "set-cookie").
  - unfold get. now rewrite values_pairs, H.
  - destruct (get h k) as [v|] eqn:G; [|reflexivity].
    unfold get. rewrite values_cons. unfold named. simpl. now rewrite H.
Qed.

Lemma values_entries_of_other h k n :
  name_eqb k n = false -> values (entries_of h k) n = [].
Proof.
  intros H. unfold entries_of.
  destruct (String.eqb k "set-cookie").
  - now rewrite values_pairs, H.
  - destruct (get h k); [|reflexivity].
    rewrite values_cons. unfold named. simpl. now rewrite H.
Qed.

Lemma flat_map_single (B : Type) (g : string -> list B) (x : string) l :
  NoDup l -> (forall k, In k l -> k <> x -> g k = []) ->
  flat_map g l = if in_dec string_dec x l then g x else [].
Proof.
  induction l as [|y r IH]; intros ND Hg; simpl; [reflexivity|].
  inversion ND as [|y' r' Hy ND']; subst.
  assert (Hr : forall k, In k r -> k <> x -> g k = [])
    by (intros k I; apply Hg; now right).
  rewrite (IH ND' Hr).
  destruct (string_dec y x) as [->|Hne].
  - destruct (in_dec string_dec x r); [contradiction|]. apply app_nil_r.
  - rewrite (Hg y (or_introl eq_refl) Hne). simpl.
    now destruct (in_dec string_dec x r).
Qed.

(** Iterating a header list shows what [get] shows. *)
Lemma get_entries h n : get (entries h) n = get h n.
Proof.
  assert (Hv : values (entries h) n =
               if in_dec string_dec (lower n) (names h)
               then values (entries_of h (lower n)) n else []).
  { unfold entries. rewrite values_flat_map.
    apply (flat_map_single string (fun k => values (entries_of h k) n)).
    - apply names_NoDup.
    - intros k I Hne. apply values_entries_of_other.
      destruct (name_eqb k n) eqn:E; [|reflexivity].
      apply name_eqb_true in E. rewrite (names_lower h k I) in E.
      contradiction. }
  destruct (in_dec string_dec (lower n) (names h)) as [I|NI].
  - transitivity (get (entries_of h (lower n)) n).
    + unfold get. now rewrite Hv.
    + rewrite get_entries_of by (rewrite name_eqb_lower_l; apply name_eqb_refl).
      apply get_congr. rewrite name_eqb_lower_l. apply name_eqb_refl.
  - unfold get at 1. rewrite Hv. symmetry. apply has_get.
    destruct (has h n) eqn:E; [|reflexivity].
    apply has_names in E. contradiction.
Qed.

Lemma copy_entries h : copy h = entries h.
Proof. reflexivity. Qed.

(** [new Headers(h)] answers [get] as [h] does. *)
Lemma get_copy h n : get (copy h) n = get h n.
Proof. rewrite copy_entries. apply get_entries. Qed.

Lemma entries_names h p : In p (entries h) -> In (fst p) (names h).
Proof.
  unfold entries. rewrite in_flat_map. intros [k [I E]].
  unfold entries_of in E.
  destruct (String.eqb k "set-cookie").
  - apply in_map_iff in E. destruct E as [v [<- _]]. exact I.
  - destruct (get h k); simpl in E; [|contradiction].
    destruct E as [<-|[]]. exact I.
Qed.

(** Iteration yields lowercased names. *)
Lemma entries_lower h p : In p (entries h) -> lower (fst p) = fst p.
Proof. intros H. eapply names_lower, entries_names, H. Qed.

(** [keys] lists exactly the lowercased names of the headers present. *)
Lemma keys_In h k : In k (keys h) <-> lower k = k /\ has h k = true.
Proof.
  unfold keys. rewrite in_map_iff. split.
  - intros [p [<- I]]. split; [now apply entries_lower with h|].
    apply has_names. rewrite (entries_lower h p I). now apply entries_names.
  - intros [L H]. pose proof H as H'.
    apply has_names in H. rewrite L in H.
    apply has_true_get in H'.
    unfold entries.
    destruct (String.eqb k "set-cookie") eqn:E.
    + destruct (values h k) as [|v vs] eqn:V.
      * exfalso. apply H'. now apply get_None_values.
      * exists (k, v). split; [reflexivity|]. apply in_flat_map.
        exists k. split; [exact H|]. unfold entries_of. rewrite E, V. now left.
    + destruct (get h k) as [v|] eqn:G; [|congruence].
      exists (k, v). split; [reflexivity|]. apply in_flat_map.
      exists k. split; [exact H|]. unfold entries_of. rewrite E, G. now left.
Qed.

(** *** The order of iteration *)

Lemma insert_sorted_hd x a l :
  String.leb a x = true ->
  HdRel (fun s1 s2 => String.leb s1 s2 = true) a l ->
  HdRel (fun s1 s2 => String.leb s1 s2 = true) a (insert_sorted x l).
Proof.
  intros L H. destruct l as [|y r]; simpl; [now constructor|].
  destruct (String.leb x y); constructor; [exact L|].
  now inversion H.
Qed.

Lemma insert_sorted_sorted x l :
  Sorted (fun s1 s2 => String.leb s1 s2 = true) l ->
  Sorted (fun s1 s2 => String.leb s1 s2 = true) (insert_sorted x l).
Proof.
  induction l as [|y r IH]; intros S; simpl.
  - repeat constructor.
  - inversion S as [|y' r' Sr Hr]; subst.
    destruct (String.leb x y) eqn:E.
    + constructor; [exact S | now constructor].
    + constructor; [now apply IH|].
      apply insert_sorted_hd; [|exact Hr].
      destruct (String.leb_total x y) as [T|T]; congruence.
Qed.

(** Names are iterated in ascending order. *)
Lemma names_sorted h : Sorted (fun s1 s2 => String.leb s1 s2 = true) (names h).
Proof.
  unfold names, sort.
  induction (nodup string_dec (map (fun p => lower (fst p)) h)) as [|x r IH]; simpl.
  - constructor.
  - now apply insert_sorted_sorted.
Qed.

End HeadersFacts.

(* ================================================================== *)
(** * The redirect-aware fetcher *)

Lemma redirect_status_spec (status : Z) :
  redirect_status status = true <-> (300 < status < 400)%Z /\ status <> 304%Z.
Proof.
  unfold redirect_status.
  rewrite !andb_true_iff, negb_true_iff, !Z.ltb_lt, Z.eqb_neq. tauto.
Qed.

Lemma redirectStatuses_spec (status : Z) :
  includesZ redirectStatuses status = true <->
  In status [301; 302; 303; 307; 308]%Z.
Proof.
  unfold includesZ, redirectStatuses. rewrite existsb_exists. split.
  - intros [x [I E]]. apply Z.eqb_eq in E. now subst.
  - intros I. exists status. split; [exact I | apply Z.eqb_refl].
Qed.

(** The five statuses the composer collapses are redirects for the
    fetcher too. *)
Lemma redirectStatuses_redirect (status : Z) :
  includesZ redirectStatuses status = true -> redirect_status status = true.
Proof.
  rewrite redirectStatuses_spec, redirect_status_spec. simpl.
  intros [<-|[<-|[<-|[<-|[<-|[]]]]]]; lia.
Qed.

(** A status outside the test of line 238 ends the loop at once. *)
Lemma inspect_not_redirect noHttps url u :
  redirect_status (Upstream.status u) = false ->
  inspect noHttps url u = Break (Response.of_fetch u).
Proof.
  intros H. unfold inspect. simpl. now rewrite H.
Qed.

(** A turn of the loop that ends with [break] returns at once. *)
Lemma redir_loop_break P fuel n noHttps url method headers body u resp :
  fetch P n (FetchCall.mk url method headers body) = Some u ->
  inspect noHttps url u = Break resp ->
  redir_loop P (S fuel) n noHttps url method headers body =
  ([FetchCall.mk url method headers body], Returned resp).
Proof.
  intros F I. simpl. now rewrite F, I.
Qed.

(** A turn of the loop that ends with [continue] fetches again. *)
Lemma redir_loop_continue P fuel n noHttps url method headers body u url' :
  fetch P n (FetchCall.mk url method headers body) = Some u ->
  inspect noHttps url u = Continue url' ->
  redir_loop P (S fuel) n noHttps url method headers body =
  (FetchCall.mk url method headers body
     :: fst (redir_loop P fuel (S n) noHttps url' method headers body),
   snd (redir_loop P fuel (S n) noHttps url' method headers body)).
Proof.
  intros F I. simpl. rewrite F, I.
  now destruct (redir_loop P fuel (S n) noHttps url' method headers body).
Qed.

(** Every call of [fetch] carries the method, the headers and the body
    the loop was entered with. *)
Lemma redir_loop_calls P fuel : forall n noHttps url method headers body call,
  In call (fst (redir_loop P fuel n noHttps url method headers body)) ->
  FetchCall.method call = method /\
  FetchCall.headers call = headers /\
  FetchCall.body call = body.
Proof.
  induction fuel as [|fuel IH]; intros n noHttps url method headers body call;
    simpl; [tauto|].
  destruct (fetch P n _) as [u|]; simpl.
  - destruct (inspect noHttps url u) as [url'|resp]; simpl.
    + specialize (IH (S n) noHttps url' method headers body call).
      destruct (redir_loop P fuel (S n) noHttps url' method headers body).
      simpl in *. intros [<-|I]; [now simpl | now apply IH].
    + intros [<-|[]]. now simpl.
  - intros [<-|[]]. now simpl.
Qed.

(** With fuel left, the first call goes to the given URL. *)
Lemma redir_loop_first P fuel n noHttps url method headers body :
  exists calls,
    fst (redir_loop P (S fuel) n noHttps url method headers body) =
    FetchCall.mk url method headers body :: calls.
Proof.
  simpl. destruct (fetch P n _) as [u|]; [|now exists []].
  destruct (inspect noHttps url u) as [url'|resp]; [|now exists []].
  destruct (redir_loop P fuel (S n) noHttps url' method headers body) as [calls r].
  now exists calls.
Qed.

Lemma ts_match_some_nonempty (s : string) (m : string * string) :
  ts_match s = Some m -> s <> EmptyString.
Proof. intros H ->. discriminate H. Qed.

Lemma same_capture_spec (m m2 : option (string * string)) :
  same_capture m m2 = true <->
  exists stamp stamp2 target, m = Some (stamp, target) /\ m2 = Some (stamp2, target).
Proof.
  unfold same_capture. split.
  - destruct m as [[s1 u1]|]; [|discriminate].
    destruct m2 as [[s2 u2]|]; [|discriminate].
    intros E. apply String.eqb_eq in E. subst. now exists s1, s2, u2.
  - intros [s1 [s2 [u [-> ->]]]]. apply String.eqb_refl.
Qed.

(** A redirect whose [Location] is another capture of the page being
    fetched makes the loop [continue] with that [Location]. *)
Lemma inspect_same_capture noHttps url u location :
  redirect_status (Upstream.status u) = true ->
  Headers.get (Upstream.headers u) "location" = Some location ->
  same_capture (ts_match location) (ts_match url) = true ->
  inspect noHttps url u = Continue location.
Proof.
  intros R L C. unfold inspect. simpl. rewrite R, L. simpl.
  destruct location as [|c r]; [discriminate C|]. simpl truthy. cbv iota.
  now rewrite C.
Qed.

(** C2, as stated, fails: a [305] is outside the set of five statuses,
    and still its [Location] is examined and followed. *)
Lemma C2_status_305_is_inspected :
  ~ (forall noHttps url u,
       includesZ redirectStatuses (Upstream.status u) = false ->
       inspect noHttps url u = Break (Response.of_fetch u)).
Proof.
  intros H.
  specialize (H false capture_a_jan use_proxy_305 eq_refl).
  vm_compute in H. discriminate H.
Qed.

(** C2, amended: the fetcher inspects the [Location] of a response
    exactly when its status lies strictly between 300 and 400 and is not
    304: for every such status a [Location] that is another capture of
    the current target is followed, and for every other status the
    fetcher makes one call and returns the fetched response unchanged,
    whatever its headers. *)
Theorem C2_redirect_inspection_range (status : Z) :
  ((300 < status < 400)%Z /\ status <> 304%Z ->
   forall noHttps url statusText headers body location,
     Headers.get headers "Location" = Some location ->
     same_capture (ts_match location) (ts_match url) = true ->
     inspect noHttps url (Upstream.mk status statusText headers body) =
     Continue location)
  /\
  (~ ((300 < status < 400)%Z /\ status <> 304%Z) ->
   forall P fuel url method headers body statusText rheaders rbody,
     let call := FetchCall.mk url method (withoutNoHttps headers) body in
     let u := Upstream.mk status statusText rheaders rbody in
     fetch P 0 call = Some u ->
     fetchWithRedirCheck P (S fuel) url method headers body =
     ([call], Returned (Response.of_fetch u))).
Proof.
  split.
  - intros R noHttps url statusText headers body location L C.
    apply inspect_same_capture; simpl; trivial.
    now apply redirect_status_spec.
  - intros R P fuel url method headers body statusText rheaders rbody call u F.
    unfold fetchWithRedirCheck.
    apply redir_loop_break with (u := u); [exact F|].
    apply inspect_not_redirect. simpl.
    destruct (redirect_status status) eqn:E; [|reflexivity].
    apply redirect_status_spec in E. contradiction.
Qed.

Lemma C2_redirect_inspection_range_witness :
  inspect false capture_a_jan use_proxy_305 = Continue capture_a_feb /\
  fetchWithRedirCheck (constant_net ok_200) 1 "https://site.test/a.html" "GET" [] None =
  ([FetchCall.mk "https://site.test/a.html" "GET" [] None],
   Returned (Response.of_fetch ok_200)).
Proof.
  split.
  - apply (proj1 (C2_redirect_inspection_range 305)); [lia | reflexivity | reflexivity].
  - apply (proj2 (C2_redirect_inspection_range 200)); [lia | reflexivity].
Defined.

(** C5: a followable redirect whose [Location] and whose current target
    both match the timestamp pattern with the same captured URL is never
    returned: the loop continues with the [Location] as its target and
    fetches again, and its result is the result of that continuation. *)
Theorem C5_internal_archive_redirect_followed
    P fuel n noHttps url method headers body u location stamp stamp2 target :
  fetch P n (FetchCall.mk url method headers body) = Some u ->
  In (Upstream.status u) [301; 302; 303; 307; 308]%Z ->
  Headers.get (Upstream.headers u) "Location" = Some location ->
  ts_match location = Some (stamp, target) ->
  ts_match url = Some (stamp2, target) ->
  inspect noHttps url u = Continue location /\
  redir_loop P (S fuel) n noHttps url method headers body =
  (FetchCall.mk url method headers body
     :: fst (redir_loop P fuel (S n) noHttps location method headers body),
   snd (redir_loop P fuel (S n) noHttps location method headers body)).
Proof.
  intros F S L M M2.
  assert (I : inspect noHttps url u = Continue location).
  { apply inspect_same_capture.
    - now apply redirectStatuses_redirect, redirectStatuses_spec.
    - exact L.
    - apply same_capture_spec. now exists stamp, stamp2, target. }
  split; [exact I|].
  now apply redir_loop_continue with (u := u).
Qed.

Lemma C5_internal_archive_redirect_followed_witness :
  inspect false capture_a_jan found_302_same_capture = Continue capture_a_feb /\
  redir_loop (scripted_net [found_302_same_capture; ok_200]) 2 0 false
    capture_a_jan "GET" [] None =
  ([FetchCall.mk capture_a_jan "GET" [] None; FetchCall.mk capture_a_feb "GET" [] None],
   Returned (Response.of_fetch ok_200)).
Proof.
  apply (C5_internal_archive_redirect_followed
           (scripted_net [found_302_same_capture; ok_200]) 1 0 false
           capture_a_jan "GET" [] None found_302_same_capture capture_a_feb
           "20200102000000" "20200101000000" "https://site.test/a.html");
    try reflexivity.
  simpl. tauto.
Defined.


(* ================================================================== *)
(** * Stored values *)

Lemma strip_trailing_clean (s : string) :
  all_chars (fun c => negb (Headers.is_http_whitespace c)) s = true ->
  Headers.strip_trailing s = s.
Proof.
  induction s as [|c r IH]; simpl; [reflexivity|].
  intros A. apply andb_true_iff in A. destruct A as [C A].
  rewrite (IH A). apply negb_true_iff in C. rewrite C. now destruct r.
Qed.

(** A value without white space is stored as it is. *)
Lemma normalize_clean (s : string) :
  all_chars (fun c => negb (Headers.is_http_whitespace c)) s = true ->
  Headers.normalize s = s.
Proof.
  intros A. unfold Headers.normalize.
  assert (L : Headers.strip_leading s = s).
  { destruct s as [|c r]; [reflexivity|]. simpl in *.
    apply andb_true_iff in A. destruct A as [C _].
    apply negb_true_iff in C. now rewrite C. }
  rewrite L. now apply strip_trailing_clean.
Qed.

Lemma all_chars_append f (a b : string) :
  all_chars f (a ++ b) = all_chars f a && all_chars f b.
Proof.
  induction a as [|x r IH]; simpl; [reflexivity|].
  now rewrite IH, andb_assoc.
Qed.

Lemma all_chars_concat f (sep : string) (l : list string) :
  all_chars f sep = true ->
  (forall x, In x l -> all_chars f x = true) ->
  all_chars f (String.concat sep l) = true.
Proof.
  intros S. induction l as [|x [|y r] IH]; intros H.
  - reflexivity.
  - simpl. apply H. now left.
  - change (String.concat sep (x :: y :: r))
      with (x ++ sep ++ String.concat sep (y :: r)).
    rewrite !all_chars_append, S, (H x (or_introl eq_refl)). simpl.
    apply IH. intros z I. apply H. now right.
Qed.

Lemma string_of_uint_clean (d : Decimal.uint) :
  all_chars (fun c => negb (Headers.is_http_whitespace c))
    (NilEmpty.string_of_uint d) = true.
Proof. induction d; simpl; trivial. Qed.

(** The decimal text of a number is stored as it is. *)
Lemma normalize_toString (n : Z) : Headers.normalize (toString n) = toString n.
Proof.
  apply normalize_clean. unfold toString.
  destruct (Z.to_int n) as [d|d]; simpl.
  - destruct d; try apply string_of_uint_clean; reflexivity.
  - destruct d; try apply (string_of_uint_clean); try reflexivity;
      simpl; apply string_of_uint_clean.
Qed.

(* ================================================================== *)
(** * The response composer *)

(** Rewrites [get] through [set], [delete] and [copy], and decides the
    comparisons of two literal names. *)
Ltac header_names :=
  repeat match goal with
    | |- context [Headers.name_eqb ?a ?b] =>
        let r := eval vm_compute in (Headers.name_eqb a b) in
        change (Headers.name_eqb a b) with r; cbv iota
    end.

Ltac get_through :=
  repeat (rewrite ?HeadersFacts.get_set, ?HeadersFacts.get_delete,
            ?HeadersFacts.get_copy; header_names).

Lemma truthy_spec (v : option string) :
  truthy v = true <-> exists s, v = Some s /\ s <> EmptyString.
Proof.
  destruct v as [[|c r]|]; simpl; split; try discriminate.
  - intros [s [E N]]. inversion E. congruence.
  - intros _. eexists. split; [reflexivity | discriminate].
  - intros _. reflexivity.
  - intros [s [E _]]. discriminate E.
Qed.

Lemma truthy_Some (s : string) : s <> EmptyString -> truthy (Some s) = true.
Proof. destruct s; [congruence | reflexivity]. Qed.

Lemma get_append k v h n :
  Headers.name_eqb k n = false ->
  Headers.get (Headers.append k v h) n = Headers.get h n.
Proof.
  intros H. unfold Headers.get, Headers.append.
  rewrite HeadersFacts.values_app, HeadersFacts.values_cons.
  unfold Headers.named. cbn [fst snd]. rewrite H.
  unfold Headers.values at 2. simpl. now rewrite app_nil_r.
Qed.

(** [new Response] leaves every header but [Content-Type] as given. *)
Lemma new_Response_get body headers status statusText n :
  Headers.name_eqb "Content-Type" n = false ->
  Headers.get (Outgoing.headers (new_Response body headers status statusText)) n =
  Headers.get headers n.
Proof.
  intros H. unfold new_Response. simpl.
  destruct body; trivial.
  destruct (Headers.has headers "Content-Type"); trivial.
  now apply get_append.
Qed.

Lemma copyResponseHeaders_get resp n :
  Headers.name_eqb "X-Proxy-Set-Cookie" n = false ->
  Headers.get (copyResponseHeaders resp) n = Headers.get (Response.headers resp) n.
Proof.
  intros H. unfold copyResponseHeaders.
  destruct (truthy _); rewrite ?HeadersFacts.get_set, ?H; apply HeadersFacts.get_copy.
Qed.

Lemma collapseRedirect_get headers resp n :
  Headers.name_eqb "x-redirect-status" n = false ->
  Headers.name_eqb "x-redirect-statusText" n = false ->
  Headers.name_eqb "x-orig-location" n = false ->
  Headers.name_eqb "x-orig-ts" n = false ->
  Headers.get (fst (collapseRedirect headers resp)) n = Headers.get headers n.
Proof.
  intros H1 H2 H3 H4. unfold collapseRedirect.
  destruct (includesZ _ _); simpl; [|reflexivity].
  destruct (truthy (Response.ts resp));
    destruct (truthy (Headers.get (Response.headers resp) "location"));
    destruct (truthy (Response.location resp));
    rewrite ?HeadersFacts.get_set, ?H1, ?H2, ?H3, ?H4; reflexivity.
Qed.

Lemma collapseRedirect_status headers resp :
  snd (collapseRedirect headers resp) =
  if includesZ redirectStatuses (Response.status resp) then 200%Z
  else Response.status resp.
Proof. unfold collapseRedirect. now destruct (includesZ _ _). Qed.

Lemma addCORSHeaders_get headers request resp n :
  Headers.name_eqb "Access-Control-Allow-Origin" n = false ->
  Headers.name_eqb "Access-Control-Allow-Credentials" n = false ->
  Headers.name_eqb "Access-Control-Expose-Headers" n = false ->
  Headers.get (addCORSHeaders headers request resp) n = Headers.get headers n.
Proof.
  intros H1 H2 H3. unfold addCORSHeaders.
  destruct (truthy _); simpl; [|reflexivity].
  now rewrite !HeadersFacts.get_set, H1, H2, H3.
Qed.

Lemma addCORSHeaders_no_origin headers request resp :
  truthy (Headers.get (Request.headers request) "Origin") = false ->
  addCORSHeaders headers request resp = headers.
Proof. intros H. unfold addCORSHeaders. now rewrite H. Qed.

(** The three parts of the answer of [respond]. *)
Lemma respond_status request resp :
  Outgoing.status (respond request resp) =
  if includesZ redirectStatuses (Response.status resp) then 200%Z
  else Response.status resp.
Proof.
  rewrite <- (collapseRedirect_status (copyResponseHeaders resp) resp).
  unfold respond. now destruct (collapseRedirect _ _).
Qed.

Lemma respond_body request resp :
  Outgoing.body (respond request resp) =
  if (400 <=? Outgoing.status (respond request resp))%Z
     && negb (truthy (Headers.get (Response.headers resp) "memento-datetime"))
  then BodyText (errorBody (Outgoing.status (respond request resp)))
  else body_of_stream (Response.body resp).
Proof.
  unfold respond. now destruct (collapseRedirect _ _).
Qed.

Lemma respond_get request resp n :
  Headers.name_eqb "Content-Type" n = false ->
  Headers.get (Outgoing.headers (respond request resp)) n =
  Headers.get
    (addCORSHeaders (fst (collapseRedirect (copyResponseHeaders resp) resp)) request resp) n.
Proof.
  intros H. unfold respond.
  destruct (collapseRedirect _ _) as [headers status]. simpl fst.
  rewrite new_Response_get by exact H. apply HeadersFacts.get_copy.
Qed.

(** C3, as stated, fails: the headers of the upstream response are
    copied, an [Access-Control-Allow-Origin] among them too, whether or
    not the request has an [Origin]. *)
Lemma C3_upstream_cors_header_copied :
  ~ (forall request resp,
       Headers.get (Request.headers request) "Origin" = None ->
       Headers.get (Outgoing.headers (respond request resp))
         "Access-Control-Allow-Origin" = None).
Proof.
  intros H. specialize (H plain_get ok_200_cors eq_refl).
  vm_compute in H. discriminate H.
Qed.

(** C3, amended: for a request without [Origin] the proxy sets no
    [Access-Control-Allow-Origin] of its own; the outgoing response
    carries that header exactly as the upstream response does, and so
    has none when the upstream response has none. *)
Theorem C3_no_origin_no_synthesized_cors request resp :
  Headers.get (Request.headers request) "Origin" = None ->
  Headers.get (Outgoing.headers (respond request resp)) "Access-Control-Allow-Origin" =
  Headers.get (Response.headers resp) "Access-Control-Allow-Origin".
Proof.
  intros H.
  rewrite respond_get by reflexivity.
  rewrite addCORSHeaders_no_origin by now rewrite H.
  rewrite collapseRedirect_get by reflexivity.
  now rewrite copyResponseHeaders_get by reflexivity.
Qed.

Lemma C3_no_origin_no_synthesized_cors_witness :
  Headers.get (Outgoing.headers (respond plain_get (Response.of_fetch ok_200)))
    "Access-Control-Allow-Origin" = None.
Proof.
  rewrite (C3_no_origin_no_synthesized_cors plain_get (Response.of_fetch ok_200) eq_refl).
  reflexivity.
Defined.

(** C4, as stated, fails: a [Location] header that is there and empty
    is not recorded. *)
Lemma C4_empty_location_not_recorded :
  ~ (forall request resp location,
       In (Response.status resp) [301; 302; 303; 307; 308]%Z ->
       Headers.get (Response.headers resp) "Location" = Some location ->
       Headers.get (Outgoing.headers (respond request resp)) "x-orig-location" =
       Some location).
Proof.
  intros H.
  specialize (H plain_get found_302_empty_location EmptyString
                (or_intror (or_introl eq_refl)) eq_refl).
  vm_compute in H. discriminate H.
Qed.

(** C4, amended: for an upstream status among 301, 302, 303, 307 and
    308 the outgoing status is 200 and the response carries
    [x-redirect-status], the upstream status, and
    [x-redirect-statusText], the upstream status text;
    [x-orig-location] is the upstream [Location] when that header is
    not empty, else the annotated target when that is not empty;
    [x-orig-ts] is the annotated timestamp when that is not empty.  The
    three texts are stored as [headers.set] stores them: without
    leading and trailing white space.  For every other upstream status
    the outgoing status is the upstream status. *)
Theorem C4_redirect_collapsed request resp :
  let out := respond request resp in
  (In (Response.status resp) [301; 302; 303; 307; 308]%Z ->
   Outgoing.status out = 200%Z /\
   Headers.get (Outgoing.headers out) "x-redirect-status" =
     Some (toString (Response.status resp)) /\
   Headers.get (Outgoing.headers out) "x-redirect-statusText" =
     Some (Headers.normalize (Response.statusText resp)) /\
   (forall location,
      Headers.get (Response.headers resp) "Location" = Some location ->
      location <> EmptyString ->
      Headers.get (Outgoing.headers out) "x-orig-location" =
        Some (Headers.normalize location)) /\
   (forall target,
      truthy (Headers.get (Response.headers resp) "Location") = false ->
      Response.location resp = Some target ->
      target <> EmptyString ->
      Headers.get (Outgoing.headers out) "x-orig-location" =
        Some (Headers.normalize target)) /\
   (forall stamp,
      Response.ts resp = Some stamp ->
      stamp <> EmptyString ->
      Headers.get (Outgoing.headers out) "x-orig-ts" =
        Some (Headers.normalize stamp)))
  /\
  (~ In (Response.status resp) [301; 302; 303; 307; 308]%Z ->
   Outgoing.status out = Response.status resp).
Proof.
  intros out. subst out. split.
  - intros S. apply redirectStatuses_spec in S.
    split; [now rewrite respond_status, S|].
    assert (G : forall n,
               Headers.name_eqb "Content-Type" n = false ->
               Headers.name_eqb "Access-Control-Allow-Origin" n = false ->
               Headers.name_eqb "Access-Control-Allow-Credentials" n = false ->
               Headers.name_eqb "Access-Control-Expose-Headers" n = false ->
               Headers.get (Outgoing.headers (respond request resp)) n =
               Headers.get (fst (collapseRedirect (copyResponseHeaders resp) resp)) n).
    { intros n H0 H1 H2 H3. rewrite respond_get by exact H0.
      now apply addCORSHeaders_get. }
    rewrite !G by reflexivity.
    unfold collapseRedirect. rewrite S. cbn [fst].
    repeat split.
    + destruct (truthy (Response.ts resp));
        destruct (truthy (Headers.get (Response.headers resp) "location"));
        destruct (truthy (Response.location resp)); get_through;
        now rewrite normalize_toString.
    + destruct (truthy (Response.ts resp));
        destruct (truthy (Headers.get (Response.headers resp) "location"));
        destruct (truthy (Response.location resp)); now get_through.
    + intros location L N.
      change (Headers.get (Response.headers resp) "location" = Some location) in L.
      rewrite L, (truthy_Some location N). cbn [or_empty].
      destruct (truthy (Response.ts resp)); now get_through.
    + intros target L T N.
      change (truthy (Headers.get (Response.headers resp) "location") = false) in L.
      rewrite L, T, (truthy_Some target N). cbn [or_empty].
      destruct (truthy (Response.ts resp)); now get_through.
    + intros stamp T N. rewrite T, (truthy_Some stamp N). cbn [or_empty].
      now get_through.
  - intros S. rewrite respond_status.
    destruct (includesZ redirectStatuses (Response.status resp)) eqn:E; [|reflexivity].
    apply redirectStatuses_spec in E. contradiction.
Qed.

Lemma C4_redirect_collapsed_witness :
  (Outgoing.status (respond plain_get found_302_b) = 200%Z /\
   Headers.get (Outgoing.headers (respond plain_get found_302_b)) "x-redirect-status" =
     Some "302" /\
   Headers.get (Outgoing.headers (respond plain_get found_302_b)) "x-orig-location" =
     Some "https://site.test/b.html") /\
  (Headers.get (Outgoing.headers (respond plain_get found_302_padded))
     "x-redirect-statusText" = Some "Found" /\
   Headers.get (Outgoing.headers (respond plain_get found_302_padded))
     "x-orig-location" = Some "https://site.test/b.html,") /\
  Outgoing.status (respond plain_get not_found_404) = 404%Z.
Proof.
  split; [|split].
  - destruct (proj1 (C4_redirect_collapsed plain_get found_302_b))
      as [S [R [_ [L _]]]].
    + simpl. tauto.
    + split; [exact S|]. split; [exact R|].
      apply (L "https://site.test/b.html"); [reflexivity | discriminate].
  - destruct (proj1 (C4_redirect_collapsed plain_get found_302_padded))
      as [_ [_ [T [L _]]]].
    + simpl. tauto.
    + split; [exact T|].
      apply (L "https://site.test/b.html, "); [reflexivity | discriminate].
  - apply (proj2 (C4_redirect_collapsed plain_get not_found_404)).
    simpl. intros [H|[H|[H|[H|[H|[]]]]]]; discriminate H.
Defined.

(** C6, as stated, fails: an [Origin] header that is there and empty
    is not reflected. *)
Lemma C6_empty_origin_not_reflected :
  ~ (forall request resp origin,
       Headers.get (Request.headers request) "Origin" = Some origin ->
       Headers.get (Outgoing.headers (respond request resp))
         "Access-Control-Allow-Origin" = Some origin).
Proof.
  intros H.
  specialize (H empty_origin_get (Response.of_fetch ok_200) EmptyString eq_refl).
  vm_compute in H. discriminate H.
Qed.

(** C6, amended: for a request whose [Origin] header is not empty, the
    outgoing [Access-Control-Allow-Origin] is that origin,
    [Access-Control-Allow-Credentials] is [true], and
    [Access-Control-Expose-Headers] is the five fixed names followed by
    the names of the upstream headers, without [transfer-encoding] and
    [content-encoding], joined by commas; the origin and the list are
    stored as [headers.set] stores them, without leading and trailing
    white space, which leaves the list as it is when no upstream header
    name has white space in it. *)
Theorem C6_origin_reflected request resp origin :
  Headers.get (Request.headers request) "Origin" = Some origin ->
  origin <> EmptyString ->
  let out := respond request resp in
  let names :=
    (["x-redirect-status"; "x-redirect-statusText"; "X-Proxy-Set-Cookie";
      "x-orig-location"; "x-orig-ts"]
     ++ filter (fun name => negb (String.eqb name "transfer-encoding")
                            && negb (String.eqb name "content-encoding"))
          (Headers.keys (Response.headers resp)))%list in
  Headers.get (Outgoing.headers out) "Access-Control-Allow-Origin" =
    Some (Headers.normalize origin) /\
  Headers.get (Outgoing.headers out) "Access-Control-Allow-Credentials" = Some "true" /\
  Headers.get (Outgoing.headers out) "Access-Control-Expose-Headers" =
    Some (Headers.normalize (String.concat "," names)) /\
  ((forall name, In name (Headers.keys (Response.headers resp)) ->
                 all_chars (fun c => negb (Headers.is_http_whitespace c)) name = true) ->
   Headers.get (Outgoing.headers out) "Access-Control-Expose-Headers" =
     Some (String.concat "," names)).
Proof.
  intros O N out names. subst out.
  assert (E : exposed resp = names).
  { unfold exposed, allowHeaders, names. f_equal.
    apply filter_ext. intros name. unfold includes. simpl.
    now rewrite orb_false_r, negb_orb. }
  rewrite !respond_get by reflexivity.
  unfold addCORSHeaders. rewrite O, (truthy_Some origin N), E. cbn [negb or_empty].
  split; [now get_through|]. split; [now get_through|].
  split; [now get_through|].
  intros W. get_through. f_equal. apply normalize_clean.
  apply all_chars_concat; [reflexivity|].
  intros x I. unfold names in I. apply in_app_or in I. destruct I as [I|I].
  - simpl in I. destruct I as [<-|[<-|[<-|[<-|[<-|[]]]]]]; reflexivity.
  - apply filter_In in I. apply W. tauto.
Qed.

Lemma C6_origin_reflected_witness :
  (Headers.get (Outgoing.headers (respond example_origin_get ok_200_gzip))
     "Access-Control-Allow-Origin" = Some "https://example.com" /\
   Headers.get (Outgoing.headers (respond example_origin_get ok_200_gzip))
     "Access-Control-Allow-Credentials" = Some "true" /\
   Headers.get (Outgoing.headers (respond example_origin_get ok_200_gzip))
     "Access-Control-Expose-Headers" =
     Some "x-redirect-status,x-redirect-statusText,X-Proxy-Set-Cookie,x-orig-location,x-orig-ts,content-type,etag") /\
  Headers.get (Outgoing.headers (respond twice_origin_get ok_200_gzip))
    "Access-Control-Allow-Origin" = Some "https://a.test,".
Proof.
  split.
  - destruct (C6_origin_reflected example_origin_get ok_200_gzip "https://example.com"
                eq_refl ltac:(discriminate)) as [A [B [C _]]].
    exact (conj A (conj B C)).
  - destruct (C6_origin_reflected twice_origin_get ok_200_gzip "https://a.test, "
                eq_refl ltac:(discriminate)) as [A _].
    exact A.
Defined.

(** C7, as stated, fails: with a [Memento-Datetime] header that is
    there and empty, the body of a [404] is replaced all the same. *)
Lemma C7_empty_memento_body_replaced :
  ~ (forall request resp,
       ~ ((400 <= Outgoing.status (respond request resp))%Z /\
          Headers.get (Response.headers resp) "memento-datetime" = None) ->
       Outgoing.body (respond request resp) = body_of_stream (Response.body resp)).
Proof.
  intros H.
  assert (C : Outgoing.body (respond plain_get not_found_404_empty_memento) =
              body_of_stream (Response.body not_found_404_empty_memento)).
  { apply H. intros [_ M]. vm_compute in M. discriminate M. }
  vm_compute in C. discriminate C.
Qed.

(** C7, amended: when the outgoing status is 400 or more and the
    upstream response has no [memento-datetime] header, or an empty one,
    the body is the error text with that status, which is the upstream
    status; when the outgoing status is below 400, or the upstream
    response has a [memento-datetime] that is not empty, the body is
    the upstream body. *)
Theorem C7_error_body request resp :
  let out := respond request resp in
  ((400 <= Outgoing.status out)%Z ->
   Headers.get (Response.headers resp) "memento-datetime" = None \/
   Headers.get (Response.headers resp) "memento-datetime" = Some EmptyString ->
   Outgoing.body out =
     BodyText ("Sorry, this page was not found or could not be loaded: (Error "
               ++ toString (Outgoing.status out) ++ ")") /\
   Outgoing.status out = Response.status resp)
  /\
  ((Outgoing.status out < 400)%Z \/
   (exists stamp,
      Headers.get (Response.headers resp) "memento-datetime" = Some stamp /\
      stamp <> EmptyString) ->
   Outgoing.body out = body_of_stream (Response.body resp)).
Proof.
  intros out. subst out. split.
  - intros S M. split.
    + rewrite respond_body.
      apply Z.leb_le in S. rewrite S.
      now destruct M as [-> | ->].
    + revert S. rewrite respond_status.
      destruct (includesZ redirectStatuses (Response.status resp)); [lia | trivial].
  - intros H. rewrite respond_body. destruct H as [S | [stamp [M N]]].
    + apply Z.leb_gt in S. now rewrite S.
    + rewrite M, (truthy_Some stamp N). now rewrite andb_false_r.
Qed.

Lemma C7_error_body_witness :
  (Outgoing.body (respond plain_get not_found_404) =
     BodyText "Sorry, this page was not found or could not be loaded: (Error 404)" /\
   Outgoing.status (respond plain_get not_found_404) = 404%Z) /\
  Outgoing.body (respond plain_get not_found_404_memento) = BodyStream page_bytes.
Proof.
  split.
  - apply (proj1 (C7_error_body plain_get not_found_404));
      [vm_compute; discriminate | left; reflexivity].
  - apply (proj2 (C7_error_body plain_get not_found_404_memento)).
    right. eexists. split; [reflexivity | discriminate].
Defined.


(* ================================================================== *)
(** * The pipeline: what is sent upstream *)

(** Every call of [fetch] made for a request carries the request's
    method, the translated headers and the selected body. *)
Lemma handleLiveWebProxy_calls P fuel proxyUrl request call :
  In call (fst (handleLiveWebProxy P fuel proxyUrl request)) ->
  exists proxyHeaders,
    proxyHeadersOf P (normalizeProxyUrl proxyUrl) request = Returned proxyHeaders /\
    FetchCall.method call = Request.method request /\
    FetchCall.headers call = withoutNoHttps proxyHeaders /\
    FetchCall.body call = proxyBodyOf request.
Proof.
  unfold handleLiveWebProxy.
  destruct (proxyHeadersOf P (normalizeProxyUrl proxyUrl) request)
    as [proxyHeaders| |]; simpl; try tauto.
  destruct (fetchWithRedirCheck P fuel _ _ proxyHeaders _) as [calls r] eqn:E.
  simpl. intros I. exists proxyHeaders. split; [reflexivity|].
  unfold fetchWithRedirCheck in E.
  apply (redir_loop_calls P fuel 0 (noHttpsOf proxyHeaders)
           (normalizeProxyUrl proxyUrl)).
  now rewrite E.
Qed.

(** Once the headers are translated and there is fuel, a call is made. *)
Lemma handleLiveWebProxy_first P fuel proxyUrl request proxyHeaders :
  proxyHeadersOf P (normalizeProxyUrl proxyUrl) request = Returned proxyHeaders ->
  exists calls,
    fst (handleLiveWebProxy P (S fuel) proxyUrl request) =
    FetchCall.mk (normalizeProxyUrl proxyUrl) (Request.method request)
      (withoutNoHttps proxyHeaders) (proxyBodyOf request) :: calls.
Proof.
  intros H. unfold handleLiveWebProxy. rewrite H.
  destruct (redir_loop_first P fuel 0 (noHttpsOf proxyHeaders)
              (normalizeProxyUrl proxyUrl) (Request.method request)
              (withoutNoHttps proxyHeaders) (proxyBodyOf request)) as [calls E].
  exists calls. unfold fetchWithRedirCheck.
  destruct (redir_loop P (S fuel) 0 _ _ _ _ _) as [calls' r].
  exact E.
Qed.

(** What the pipeline answers is [respond] of what the fetcher returned. *)
Lemma handleLiveWebProxy_returned P fuel proxyUrl request calls out :
  handleLiveWebProxy P fuel proxyUrl request = (calls, Returned out) ->
  exists proxyHeaders resp,
    proxyHeadersOf P (normalizeProxyUrl proxyUrl) request = Returned proxyHeaders /\
    fetchWithRedirCheck P fuel (normalizeProxyUrl proxyUrl) (Request.method request)
      proxyHeaders (proxyBodyOf request) = (calls, Returned resp) /\
    out = respond request resp.
Proof.
  unfold handleLiveWebProxy.
  destruct (proxyHeadersOf P (normalizeProxyUrl proxyUrl) request)
    as [proxyHeaders| |]; try discriminate.
  destruct (fetchWithRedirCheck P fuel _ _ proxyHeaders _)
    as [calls' [resp| |]] eqn:F; simpl; try discriminate.
  intros E. inversion E; subst. exists proxyHeaders, resp. repeat split. exact F.
Qed.

(** The translator returns unless a non-empty [X-Proxy-Referer] or the
    target fails to parse. *)
Lemma proxyHeadersOf_returns P proxyUrl request :
  (truthy (Headers.get (Request.headers request) "X-Proxy-Referer") = true ->
   URL_origin P (or_empty (Headers.get (Request.headers request) "X-Proxy-Referer"))
     <> None /\
   URL_origin P proxyUrl <> None) ->
  exists proxyHeaders, proxyHeadersOf P proxyUrl request = Returned proxyHeaders.
Proof.
  intros H. unfold proxyHeadersOf, applyReferrer.
  change (Headers.get (Request.headers request) "X-Proxy-Referer")
    with (Headers.get (Request.headers request) "x-proxy-referer") in H.
  destruct (truthy (Headers.get (Request.headers request) "x-proxy-referer"));
    [|eexists; reflexivity].
  destruct (H eq_refl) as [O T].
  destruct (URL_origin P (or_empty _)) as [origin|]; [|congruence].
  destruct (URL_origin P proxyUrl) as [target|]; [|congruence].
  destruct (negb _); eexists; reflexivity.
Qed.

(** C10: every call of [fetch] made for a [GET] or [HEAD] request has a
    null body, and for any other method it has the body of the
    request; and a call is made: unless [new URL] throws on a non-empty
    [X-Proxy-Referer] or on the target, the first turn of the loop
    calls [fetch] for the target with the request's method and that
    body. *)
Theorem C10_body_forwarding P proxyUrl request :
  (forall fuel call,
     In call (fst (handleLiveWebProxy P fuel proxyUrl request)) ->
     (Request.method request = "GET" \/ Request.method request = "HEAD" ->
      FetchCall.body call = None) /\
     (Request.method request <> "GET" -> Request.method request <> "HEAD" ->
      FetchCall.body call = Request.body request))
  /\
  ((truthy (Headers.get (Request.headers request) "X-Proxy-Referer") = true ->
    URL_origin P (or_empty (Headers.get (Request.headers request) "X-Proxy-Referer"))
      <> None /\
    URL_origin P (normalizeProxyUrl proxyUrl) <> None) ->
   forall fuel,
   exists call calls,
     fst (handleLiveWebProxy P (S fuel) proxyUrl request) = call :: calls /\
     FetchCall.url call = normalizeProxyUrl proxyUrl /\
     FetchCall.method call = Request.method request /\
     FetchCall.body call =
       if String.eqb (Request.method request) "GET"
          || String.eqb (Request.method request) "HEAD"
       then None else Request.body request).
Proof.
  split.
  - intros fuel call I.
    destruct (handleLiveWebProxy_calls P fuel proxyUrl request call I)
      as [proxyHeaders [_ [_ [_ B]]]].
    rewrite B. unfold proxyBodyOf. split.
    + intros [-> | ->]; reflexivity.
    + intros G H.
      apply String.eqb_neq in G. apply String.eqb_neq in H. now rewrite G, H.
  - intros H fuel.
    destruct (proxyHeadersOf_returns P (normalizeProxyUrl proxyUrl) request H)
      as [proxyHeaders E].
    destruct (handleLiveWebProxy_first P fuel proxyUrl request proxyHeaders E)
      as [calls F].
    eexists. exists calls. split; [exact F|]. now repeat split.
Qed.

Lemma C10_body_forwarding_witness :
  (exists call calls,
     fst (handleLiveWebProxy (constant_net ok_200) 1
            "https://site.test/a.html" get_with_body) = call :: calls /\
     FetchCall.url call = "https://site.test/a.html" /\
     FetchCall.method call = "GET" /\
     FetchCall.body call = None) /\
  (exists call calls,
     fst (handleLiveWebProxy (constant_net ok_200) 1
            "https://site.test/form" form_post) = call :: calls /\
     FetchCall.url call = "https://site.test/form" /\
     FetchCall.method call = "POST" /\
     FetchCall.body call = Some form_bytes).
Proof.
  split.
  - apply (proj2 (C10_body_forwarding (constant_net ok_200)
                    "https://site.test/a.html" get_with_body)).
    discriminate.
  - apply (proj2 (C10_body_forwarding (constant_net ok_200)
                    "https://site.test/form" form_post)).
    discriminate.
Defined.

(** ** The header translator *)

(** Lines 74-84 and 224-227 touch five names only. *)
Lemma translation_tail_get request headers n :
  Headers.name_eqb "x-proxy-user-agent" n = false ->
  Headers.name_eqb "User-Agent" n = false ->
  Headers.name_eqb "host" n = false ->
  Headers.name_eqb "Cookie" n = false ->
  Headers.name_eqb "X-OWT-No-HTTPS" n = false ->
  Headers.get
    (withoutNoHttps
       (applyCookie request (Headers.delete "host" (applyUserAgent request headers)))) n =
  Headers.get headers n.
Proof.
  intros H1 H2 H3 H4 H5.
  unfold withoutNoHttps, applyCookie, applyUserAgent.
  destruct (noHttpsOf _);
    destruct (truthy (Headers.get (Request.headers request) "x-proxy-cookie"));
    destruct (truthy (Headers.get (Request.headers request) "x-proxy-user-agent"));
    rewrite ?HeadersFacts.get_delete, ?HeadersFacts.get_set, ?H5, ?H4,
      ?HeadersFacts.get_delete, ?H3, ?HeadersFacts.get_set, ?H2,
      ?HeadersFacts.get_delete, ?H1; reflexivity.
Qed.

Lemma proxyHeadersOf_returned P proxyUrl request proxyHeaders :
  proxyHeadersOf P proxyUrl request = Returned proxyHeaders ->
  exists headers,
    applyReferrer P proxyUrl request (copyRequestHeaders request) = Returned headers /\
    proxyHeaders =
    applyCookie request (Headers.delete "host" (applyUserAgent request headers)).
Proof.
  unfold proxyHeadersOf.
  destruct (applyReferrer P proxyUrl request (copyRequestHeaders request))
    as [headers| |]; simpl; try discriminate.
  intros E. inversion E. now exists headers.
Qed.

(** C8, as stated, fails: an [X-Proxy-Referer] header that is there and
    empty sets no [Referer]. *)
Lemma C8_empty_referer_not_set :
  ~ (forall P fuel proxyUrl request referrer call,
       Headers.get (Request.headers request) "X-Proxy-Referer" = Some referrer ->
       In call (fst (handleLiveWebProxy P fuel proxyUrl request)) ->
       Headers.get (FetchCall.headers call) "Referer" = Some referrer).
Proof.
  intros H.
  specialize (H (constant_net ok_200) 1%nat "https://site.test/a.html"
                empty_referer_get EmptyString
                (FetchCall.mk "https://site.test/a.html" "GET" [] None)
                eq_refl (or_introl eq_refl)).
  vm_compute in H. discriminate H.
Qed.

(** C8, amended: for a request whose [X-Proxy-Referer] is not empty,
    with a referrer and a target that both parse as URLs, a call of
    [fetch] is made, and every call has [Referer] set to the referrer;
    when the two origins differ it has [Origin] set to the referrer's
    origin and [Sec-Fetch-Site: cross-origin], and when they are equal
    it has no [Origin] and [Sec-Fetch-Site: same-origin].  The referrer
    and the origin are stored as [headers.set] stores them: without
    leading and trailing white space. *)
Theorem C8_referrer_translated P fuel proxyUrl request referrer origin target :
  Headers.get (Request.headers request) "X-Proxy-Referer" = Some referrer ->
  referrer <> EmptyString ->
  URL_origin P referrer = Some origin ->
  URL_origin P (normalizeProxyUrl proxyUrl) = Some target ->
  fst (handleLiveWebProxy P (S fuel) proxyUrl request) <> [] /\
  forall call,
    In call (fst (handleLiveWebProxy P (S fuel) proxyUrl request)) ->
    Headers.get (FetchCall.headers call) "Referer" =
      Some (Headers.normalize referrer) /\
    (origin <> target ->
     Headers.get (FetchCall.headers call) "Origin" =
       Some (Headers.normalize origin) /\
     Headers.get (FetchCall.headers call) "Sec-Fetch-Site" = Some "cross-origin") /\
    (origin = target ->
     Headers.get (FetchCall.headers call) "Origin" = None /\
     Headers.get (FetchCall.headers call) "Sec-Fetch-Site" = Some "same-origin").
Proof.
  intros R N O T.
  change (Headers.get (Request.headers request) "x-proxy-referer" = Some referrer) in R.
  assert (A : applyReferrer P (normalizeProxyUrl proxyUrl) request
                (copyRequestHeaders request) =
              Returned
                (if negb (String.eqb origin target)
                 then Headers.set "Sec-Fetch-Site" "cross-origin"
                        (Headers.set "Origin" origin
                           (Headers.set "Referer" referrer (copyRequestHeaders request)))
                 else Headers.set "Sec-Fetch-Site" "same-origin"
                        (Headers.delete "Origin"
                           (Headers.set "Referer" referrer (copyRequestHeaders request))))).
  { unfold applyReferrer. rewrite R, (truthy_Some referrer N). cbn [or_empty].
    rewrite O, T. now destruct (negb (String.eqb origin target)). }
  split.
  - destruct (handleLiveWebProxy_first P fuel proxyUrl request
                (applyCookie request
                   (Headers.delete "host"
                      (applyUserAgent request
                         (if negb (String.eqb origin target)
                          then Headers.set "Sec-Fetch-Site" "cross-origin"
                                 (Headers.set "Origin" origin
                                    (Headers.set "Referer" referrer
                                       (copyRequestHeaders request)))
                          else Headers.set "Sec-Fetch-Site" "same-origin"
                                 (Headers.delete "Origin"
                                    (Headers.set "Referer" referrer
                                       (copyRequestHeaders request))))))))
      as [calls E].
    + unfold proxyHeadersOf. now rewrite A.
    + rewrite E. discriminate.
  - intros call I.
    destruct (handleLiveWebProxy_calls P (S fuel) proxyUrl request call I)
      as [proxyHeaders [Hp [_ [Hh _]]]].
    apply proxyHeadersOf_returned in Hp. destruct Hp as [headers [A' ->]].
    rewrite A in A'. inversion A' as [A'']. clear A'.
    rewrite Hh, !translation_tail_get by reflexivity.
    rewrite <- A''.
    destruct (String.eqb_spec origin target) as [E|E]; cbn [negb].
    + repeat split; intros; try contradiction; now get_through.
    + repeat split; intros; try contradiction; now get_through.
Qed.

Lemma C8_referrer_translated_witness :
  (forall call,
     In call (fst (handleLiveWebProxy (constant_net ok_200) 1
                     "https://site.test/a.html" cross_site_get)) ->
     Headers.get (FetchCall.headers call) "Referer" = Some "https://other.test/index.html" /\
     Headers.get (FetchCall.headers call) "Origin" = Some "https://other.test" /\
     Headers.get (FetchCall.headers call) "Sec-Fetch-Site" = Some "cross-origin") /\
  (forall call,
     In call (fst (handleLiveWebProxy (constant_net ok_200) 1
                     "https://site.test/a.html" same_site_get)) ->
     Headers.get (FetchCall.headers call) "Referer" = Some "https://site.test/index.html" /\
     Headers.get (FetchCall.headers call) "Origin" = None /\
     Headers.get (FetchCall.headers call) "Sec-Fetch-Site" = Some "same-origin") /\
  (forall call,
     In call (fst (handleLiveWebProxy (constant_net ok_200) 1
                     "https://site.test/a.html" twice_referer_get)) ->
     Headers.get (FetchCall.headers call) "Referer" = Some "https://other.test/i,").
Proof.
  split; [|split]; intros call I.
  - destruct (C8_referrer_translated (constant_net ok_200) 0
                "https://site.test/a.html" cross_site_get
                "https://other.test/index.html" "https://other.test" "https://site.test"
                eq_refl ltac:(discriminate) eq_refl eq_refl) as [_ H].
    destruct (H call I) as [R [X _]].
    destruct (X ltac:(discriminate)) as [O S].
    exact (conj R (conj O S)).
  - destruct (C8_referrer_translated (constant_net ok_200) 0
                "https://site.test/a.html" same_site_get
                "https://site.test/index.html" "https://site.test" "https://site.test"
                eq_refl ltac:(discriminate) eq_refl eq_refl) as [_ H].
    destruct (H call I) as [R [_ X]].
    destruct (X eq_refl) as [O S].
    exact (conj R (conj O S)).
  - destruct (C8_referrer_translated (constant_net ok_200) 0
                "https://site.test/a.html" twice_referer_get
                "https://other.test/i, " "https://other.test" "https://site.test"
                eq_refl ltac:(discriminate) eq_refl eq_refl) as [_ H].
    exact (proj1 (H call I)).
Defined.

(** ** What never goes upstream *)

Lemma clean_empty : clean Headers.empty.
Proof. intros name _. reflexivity. Qed.

Lemma clean_set name value headers :
  dropped (lower name) = false -> clean headers ->
  clean (Headers.set name value headers).
Proof.
  intros D C n Dn. rewrite HeadersFacts.get_set.
  destruct (Headers.name_eqb name n) eqn:E; [|now apply C].
  apply HeadersFacts.name_eqb_true in E. congruence.
Qed.

Lemma clean_delete name headers :
  clean headers -> clean (Headers.delete name headers).
Proof.
  intros C n Dn. rewrite HeadersFacts.get_delete.
  destruct (Headers.name_eqb name n); [reflexivity | now apply C].
Qed.

Lemma clean_fold entries : forall acc,
  Forall (fun p => lower (fst p) = fst p) entries ->
  clean acc ->
  clean (fold_left
           (fun proxyHeaders p =>
              if dropped (fst p) then proxyHeaders
              else Headers.set (fst p) (snd p) proxyHeaders)
           entries acc).
Proof.
  induction entries as [|p r IH]; intros acc F C; simpl; [exact C|].
  inversion F as [|p' r' L F']; subst.
  apply IH; [exact F'|].
  destruct (dropped (fst p)) eqn:D; [exact C|].
  apply clean_set; [now rewrite L | exact C].
Qed.

Lemma clean_copyRequestHeaders request : clean (copyRequestHeaders request).
Proof.
  unfold copyRequestHeaders. apply clean_fold; [|apply clean_empty].
  apply Forall_forall. intros p I. now apply HeadersFacts.entries_lower with (h := Request.headers request).
Qed.

Lemma clean_applyReferrer P proxyUrl request headers headers' :
  clean headers ->
  applyReferrer P proxyUrl request headers = Returned headers' ->
  clean headers'.
Proof.
  intros C. unfold applyReferrer.
  destruct (truthy _); [|intros E; inversion E; now subst].
  destruct (URL_origin P _) as [origin|]; [|discriminate].
  destruct (URL_origin P proxyUrl) as [target|]; [|discriminate].
  destruct (negb _); intros E; inversion E; subst;
    repeat first [apply clean_set; [reflexivity|] | apply clean_delete]; exact C.
Qed.

Lemma clean_proxyHeadersOf P proxyUrl request proxyHeaders :
  proxyHeadersOf P proxyUrl request = Returned proxyHeaders ->
  clean (withoutNoHttps proxyHeaders).
Proof.
  intros H. apply proxyHeadersOf_returned in H. destruct H as [headers [A ->]].
  pose proof (clean_applyReferrer P proxyUrl request _ _
                (clean_copyRequestHeaders request) A) as C.
  unfold withoutNoHttps, applyCookie, applyUserAgent.
  destruct (noHttpsOf _); destruct (truthy _); destruct (truthy _);
    repeat first [apply clean_set; [reflexivity|] | apply clean_delete]; exact C.
Qed.

Lemma dropped_spec (name : string) :
  dropped name = true <->
  startsWith name "cf-" = true \/ startsWith name "x-pywb-" = true \/
  name = "x-proxy-referer".
Proof.
  unfold dropped. rewrite !orb_true_iff, String.eqb_eq. tauto.
Qed.

(** The part of the translator's invariant that holds: no call of
    [fetch] carries a header whose name starts with [cf-] or [x-pywb-],
    nor [X-Proxy-Referer], nor [Host]; and a non-empty
    [X-Proxy-User-Agent] is replaced by [User-Agent], with the value
    as [headers.set] stores it (without leading and trailing white
    space). *)
Theorem outbound_headers_sanitized P fuel proxyUrl request call :
  In call (fst (handleLiveWebProxy P fuel proxyUrl request)) ->
  (forall name, startsWith (lower name) "cf-" = true ->
                Headers.has (FetchCall.headers call) name = false) /\
  (forall name, startsWith (lower name) "x-pywb-" = true ->
                Headers.has (FetchCall.headers call) name = false) /\
  Headers.has (FetchCall.headers call) "X-Proxy-Referer" = false /\
  Headers.has (FetchCall.headers call) "Host" = false /\
  (forall ua, Headers.get (Request.headers request) "X-Proxy-User-Agent" = Some ua ->
              ua <> EmptyString ->
              Headers.has (FetchCall.headers call) "X-Proxy-User-Agent" = false /\
              Headers.get (FetchCall.headers call) "User-Agent" =
                Some (Headers.normalize ua)).
Proof.
  intros I.
  destruct (handleLiveWebProxy_calls P fuel proxyUrl request call I)
    as [proxyHeaders [Hp [_ [Hh _]]]].
  pose proof (clean_proxyHeadersOf P _ request proxyHeaders Hp) as C.
  rewrite Hh.
  split; [|split; [|split; [|split]]].
  - intros name S. apply HeadersFacts.has_get, C, dropped_spec. now left.
  - intros name S. apply HeadersFacts.has_get, C, dropped_spec. right. now left.
  - apply HeadersFacts.has_get, C. reflexivity.
  - apply HeadersFacts.has_get.
    apply proxyHeadersOf_returned in Hp. destruct Hp as [headers [_ ->]].
    unfold withoutNoHttps, applyCookie.
    destruct (noHttpsOf _); destruct (truthy _); now get_through.
  - intros ua U N.
    change (Headers.get (Request.headers request) "x-proxy-user-agent" = Some ua) in U.
    apply proxyHeadersOf_returned in Hp. destruct Hp as [headers [_ ->]].
    rewrite HeadersFacts.has_get.
    unfold withoutNoHttps, applyCookie, applyUserAgent.
    rewrite U, (truthy_Some ua N). cbn [or_empty].
    destruct (noHttpsOf _); destruct (truthy _); split; now get_through.
Qed.

(** C1 at the request of the specification's example: the call of
    [fetch] carries [Cookie: session=abc], and [X-Proxy-Cookie] with
    it; nothing in lines 49-84 removes that header. *)
Theorem C1_x_proxy_cookie_forwarded P fuel :
  exists call calls,
    fst (handleLiveWebProxy P (S fuel) "https://site.test/a.html" cookie_request) =
    call :: calls /\
    Headers.get (FetchCall.headers call) "Cookie" = Some "session=abc" /\
    Headers.get (FetchCall.headers call) "X-Proxy-Cookie" = Some "session=abc" /\
    Headers.has (FetchCall.headers call) "X-Proxy-Cookie" = true.
Proof.
  destruct (handleLiveWebProxy_first P fuel "https://site.test/a.html" cookie_request
              [("x-proxy-cookie", "session=abc"); ("Cookie", "session=abc")] eq_refl)
    as [calls E].
  eexists. exists calls. split; [exact E|]. now vm_compute.
Qed.


(* ================================================================== *)
(** * The [OPTIONS] responder *)

Lemma includes_spec (l : list string) (x : string) :
  includes l x = true <-> In x l.
Proof.
  unfold includes. rewrite existsb_exists. split.
  - intros [y [I E]]. apply String.eqb_eq in E. now subst.
  - intros I. exists x. split; [exact I | apply String.eqb_refl].
Qed.

(** The test of lines 179-184, read as a proposition. *)
Lemma originRefused_spec (allowed : option (list string)) (origin : option string) :
  originRefused allowed origin = true <->
  exists l o, allowed = Some l /\ l <> [] /\
              origin = Some o /\ o <> EmptyString /\ ~ In o l.
Proof.
  unfold originRefused. split.
  - destruct allowed as [l|]; [|discriminate].
    rewrite !andb_true_iff, !negb_true_iff, truthy_spec.
    intros [[L [o [-> N]]] I]. exists l, o. repeat split; trivial.
    + intros ->. discriminate L.
    + intros Hin. apply includes_spec in Hin. simpl in I. congruence.
  - intros [l [o [-> [L [-> [N I]]]]]].
    rewrite !andb_true_iff, !negb_true_iff. repeat split.
    + destruct l; [contradiction | reflexivity].
    + now apply truthy_Some.
    + simpl. destruct (includes l o) eqn:E; [|reflexivity].
      apply includes_spec in E. contradiction.
Qed.

(** C9, as stated, fails: an [Origin] header that is there and empty is
    on no list, and is not refused. *)
Lemma C9_empty_origin_not_refused :
  ~ (forall request origin,
       Headers.get (Request.headers request) "Origin" = Some origin ->
       ~ In origin ["http://localhost:10001"; "http://localhost:8000";
                    "http://localhost:3000"; "https://proxy-test.slax.dev"] ->
       Outgoing.status (handleOptions request) = 403%Z).
Proof.
  intros H.
  assert (C : Outgoing.status (handleOptions options_empty_origin) = 403%Z).
  { apply (H options_empty_origin EmptyString eq_refl).
    simpl. intros [E|[E|[E|[E|[]]]]]; discriminate E. }
  vm_compute in C. discriminate C.
Qed.

(** C9, amended: when the list of allowed origins is there and not
    empty, and the [Origin] of the request is not empty and not on it,
    the answer is a 403 whose body is the JSON text of
    [{error: "origin not allowed"}]; otherwise, when [Origin],
    [Access-Control-Request-Method] and [Access-Control-Request-Headers]
    are all there, the answer has status 200, no body, and four
    headers: the three echoed, each as the [Response] constructor
    stores it (without leading and trailing white space), and
    [Access-Control-Allow-Credentials: true]; otherwise the answer has
    status 200, no body and the one header [Allow]. *)
Theorem C9_options_responder allowed request :
  let origin := Headers.get (Request.headers request) "Origin" in
  let method := Headers.get (Request.headers request) "Access-Control-Request-Method" in
  let headers := Headers.get (Request.headers request) "Access-Control-Request-Headers" in
  let out := handleOptionsWith allowed request in
  (forall l o,
     allowed = Some l -> l <> [] ->
     origin = Some o -> o <> EmptyString -> ~ In o l ->
     Outgoing.status out = 403%Z /\
     Outgoing.body out =
       BodyText
         (String "{"
            (String dquote
               ("error" ++
                String dquote
                  (String ":"
                     (String dquote
                        ("origin not allowed" ++ String dquote "}")))))) /\
     Outgoing.headers out = [("Content-Type", "application/json")])
  /\
  (originRefused allowed origin = false ->
   forall o m h,
     origin = Some o -> method = Some m -> headers = Some h ->
     Outgoing.status out = 200%Z /\
     Outgoing.headers out =
       [("Access-Control-Allow-Method", Headers.normalize m);
        ("Access-Control-Allow-Headers", Headers.normalize h);
        ("Access-Control-Allow-Origin", Headers.normalize o);
        ("Access-Control-Allow-Credentials", "true")] /\
     Outgoing.body out = BodyNull)
  /\
  (originRefused allowed origin = false ->
   origin = None \/ method = None \/ headers = None ->
   Outgoing.status out = 200%Z /\
   Outgoing.headers out = [("Allow", "GET, HEAD, POST, OPTIONS")] /\
   Outgoing.body out = BodyNull).
Proof.
  intros origin method headers out. subst out. unfold handleOptionsWith.
  fold origin method headers.
  split; [|split].
  - intros l o A L O N I.
    assert (R : originRefused allowed origin = true).
    { apply originRefused_spec. now exists l, o. }
    rewrite R. repeat split.
  - intros R o m h O M H. rewrite R, O, M, H. now repeat split.
  - intros R H. rewrite R.
    destruct origin as [o|]; [|now repeat split].
    destruct method as [m|]; [|now repeat split].
    destruct headers as [h|]; [|now repeat split].
    destruct H as [H|[H|H]]; discriminate H.
Qed.

Lemma C9_options_responder_witness :
  (Outgoing.status (handleOptions options_evil) = 403%Z /\
   Outgoing.headers (handleOptions options_evil) = [("Content-Type", "application/json")]) /\
  (Outgoing.status (handleOptions options_preflight) = 200%Z /\
   Outgoing.headers (handleOptions options_preflight) =
     [("Access-Control-Allow-Method", "POST");
      ("Access-Control-Allow-Headers", "x-proxy-cookie");
      ("Access-Control-Allow-Origin", "http://localhost:3000");
      ("Access-Control-Allow-Credentials", "true")] /\
   Outgoing.body (handleOptions options_preflight) = BodyNull) /\
  (Outgoing.status (handleOptions options_plain) = 200%Z /\
   Outgoing.headers (handleOptions options_plain) =
     [("Allow", "GET, HEAD, POST, OPTIONS")] /\
   Outgoing.body (handleOptions options_plain) = BodyNull).
Proof.
  split; [|split].
  - destruct (proj1 (C9_options_responder CORS_ALLOWED_ORIGINS options_evil)
                _ "https://evil.test" eq_refl ltac:(discriminate) eq_refl
                ltac:(discriminate)) as [S [_ H]].
    + simpl. intros [E|[E|[E|[E|[]]]]]; discriminate E.
    + exact (conj S H).
  - apply (proj1 (proj2 (C9_options_responder CORS_ALLOWED_ORIGINS options_preflight))
             eq_refl "http://localhost:3000" "POST" "x-proxy-cookie");
      reflexivity.
  - apply (proj2 (proj2 (C9_options_responder CORS_ALLOWED_ORIGINS options_plain)));
      [reflexivity | left; reflexivity].
Defined.


(* ================================================================== *)
(** * The fetcher and the composer together *)

Lemma ts_match_here_nonempty (s stamp target : string) :
  ts_match_here s = Some (stamp, target) ->
  stamp <> EmptyString /\ target <> EmptyString.
Proof.
  unfold ts_match_here.
  destruct (span_digits s) as [digits r].
  destruct digits as [|c d]; [discriminate|].
  destruct (strip_prefix "id_/" r) as [r1|]; [|discriminate].
  destruct (strip_prefix "http" r1) as [r2|]; [|discriminate].
  destruct (strip_prefix "s:" r2) as [r3|].
  - intros E. inversion E. split; discriminate.
  - destruct (strip_prefix ":" r2) as [r3|]; [|discriminate].
    intros E. inversion E. split; discriminate.
Qed.

Lemma ts_match_nonempty (s stamp target : string) :
  ts_match s = Some (stamp, target) ->
  stamp <> EmptyString /\ target <> EmptyString.
Proof.
  induction s as [|c r IH]; simpl.
  - discriminate.
  - destruct (ts_match_here (String c r)) as [m|] eqn:E; [|exact IH].
    intros H. inversion H; subst. now apply ts_match_here_nonempty in E.
Qed.

(** The response the fetcher returns is the fetched one, either as it
    is or annotated with the two groups of the match of its [Location];
    the annotations are never empty. *)
Lemma inspect_break noHttps url u resp :
  inspect noHttps url u = Break resp ->
  resp = Response.of_fetch u \/
  exists location stamp target,
    Headers.get (Upstream.headers u) "Location" = Some location /\
    ts_match location = Some (stamp, target) /\
    stamp <> EmptyString /\ target <> EmptyString /\
    resp = Response.annotate target stamp (Response.of_fetch u).
Proof.
  unfold inspect. simpl.
  destruct (redirect_status (Upstream.status u)); [|intros E; inversion E; now left].
  destruct (Headers.get (Upstream.headers u) "location") as [location|] eqn:L;
    [|intros E; inversion E; now left].
  destruct (truthy (Some location)); [|intros E; inversion E; now left].
  cbn [or_empty].
  destruct (same_capture _ _); [discriminate|].
  destruct (noHttps && startsWith location "https://"); [discriminate|].
  destruct (ts_match location) as [[stamp target]|] eqn:M;
    intros E; inversion E; [right | now left].
  destruct (ts_match_nonempty location stamp target M) as [N1 N2].
  now exists location, stamp, target.
Qed.

(** The specification's first redirect example: neither URL is a
    capture, the fetcher makes one call, and the composer answers 200
    with the redirect described in headers. *)
Example external_redirect_surfaced :
  let r := handleLiveWebProxy (constant_net found_302_b_upstream) 3
             "https://site.test/a.html" plain_get in
  fst r = [FetchCall.mk "https://site.test/a.html" "GET" [("accept", "*/*")] None] /\
  exists out,
    snd r = Returned out /\
    Outgoing.status out = 200%Z /\
    Headers.get (Outgoing.headers out) "x-redirect-status" = Some "302" /\
    Headers.get (Outgoing.headers out) "x-orig-location" = Some "https://site.test/b.html".
Proof.
  split; [reflexivity|]. eexists. split; [reflexivity|]. now vm_compute.
Qed.

(** The second one: a redirect between two captures of one page is
    followed, and nothing of it shows in the answer. *)
Example archive_redirect_not_surfaced :
  let r := handleLiveWebProxy (scripted_net [found_302_same_capture; ok_200]) 3
             capture_a_jan plain_get in
  map FetchCall.url (fst r) = [capture_a_jan; capture_a_feb] /\
  exists out,
    snd r = Returned out /\
    Outgoing.status out = 200%Z /\
    Headers.has (Outgoing.headers out) "x-redirect-status" = false /\
    Headers.has (Outgoing.headers out) "x-orig-location" = false /\
    Headers.has (Outgoing.headers out) "x-orig-ts" = false.
Proof.
  split; [reflexivity|]. eexists. split; [reflexivity|]. now vm_compute.
Qed.

(** A protocol-relative target is fetched over [https]. *)
Example protocol_relative_target :
  map FetchCall.url
    (fst (handleLiveWebProxy (constant_net ok_200) 1 "//site.test/x" plain_get)) =
  ["https://site.test/x"].
Proof. reflexivity. Qed.


(* ================================================================== *)
(** * Strings *)

Lemma append_nil_r (s : string) : s ++ EmptyString = s.
Proof. induction s as [|c r IH]; simpl; [reflexivity | now rewrite IH]. Qed.

Lemma append_assoc (a b c : string) : (a ++ b) ++ c = a ++ (b ++ c).
Proof. induction a as [|x r IH]; simpl; [reflexivity | now rewrite IH]. Qed.

Lemma length_append (a b : string) :
  String.length (a ++ b) = (String.length a + String.length b)%nat.
Proof. induction a as [|x r IH]; simpl; [reflexivity | now rewrite IH]. Qed.

(** Two ways to cut one string at the same place are the same cut. *)
Lemma append_inj_length (a b a' b' : string) :
  a ++ b = a' ++ b' -> String.length a = String.length a' -> a = a' /\ b = b'.
Proof.
  revert a'. induction a as [|x r IH]; intros [|x' r']; simpl; intros E L;
    try discriminate; [now split|].
  inversion E; subst. inversion L as [L'].
  destruct (IH r' H1 L') as [-> ->]. now split.
Qed.

Lemma strip_prefix_spec (p s r : string) :
  strip_prefix p s = Some r <-> s = p ++ r.
Proof.
  revert s. induction p as [|a p IH]; intros s; simpl.
  - split; [intros E; now inversion E | now intros ->].
  - destruct s as [|b s]; [split; discriminate|].
    destruct (Ascii.eqb_spec a b) as [->|N].
    + rewrite IH. split; [now intros -> | intros E; now inversion E].
    + split; [discriminate | intros E; inversion E; congruence].
Qed.

Lemma strip_prefix_append (p r : string) : strip_prefix p (p ++ r) = Some r.
Proof. now apply strip_prefix_spec. Qed.

Lemma startsWith_spec (s p : string) :
  startsWith s p = true <-> exists r, s = p ++ r.
Proof.
  unfold startsWith. revert s. induction p as [|a p IH]; intros s.
  - rewrite prefix_nil. split; [intros _; now exists s | reflexivity].
  - destruct s as [|b s]; simpl.
    + split; [discriminate | intros [r E]; discriminate E].
    + destruct (ascii_dec a b) as [->|N].
      * rewrite IH. split; intros [r E]; exists r; [now rewrite E | now inversion E].
      * split; [discriminate | intros [r E]; inversion E; congruence].
Qed.

(* ================================================================== *)
(** * The timestamp pattern *)

Lemma span_digits_spec (s d r : string) :
  span_digits s = (d, r) ->
  s = d ++ r /\ all_chars is_digit d = true.
Proof.
  revert d r. induction s as [|c s IH]; simpl; intros d r E.
  - inversion E. now split.
  - destruct (is_digit c) eqn:D.
    + destruct (span_digits s) as [d' r'] eqn:S. inversion E; subst.
      destruct (IH d' r eq_refl) as [-> A]. simpl. now rewrite D, A.
    + inversion E. now split.
Qed.

(** The digits of a run that is followed by a letter are taken whole. *)
Lemma span_digits_append (d r : string) (c : ascii) :
  all_chars is_digit d = true -> is_digit c = false ->
  span_digits (d ++ String c r) = (d, String c r).
Proof.
  intros A N. induction d as [|x d IH]; simpl.
  - now rewrite N.
  - simpl in A. apply andb_true_iff in A. destruct A as [X A].
    now rewrite X, (IH A).
Qed.

Lemma dot_star_spec (s : string) :
  all_chars (fun c => negb (is_line_terminator c)) (dot_star s) = true /\
  exists post, s = dot_star s ++ post.
Proof.
  induction s as [|c r [A [post E]]]; simpl.
  - split; [reflexivity | now exists EmptyString].
  - destruct (is_line_terminator c) eqn:T; simpl.
    + split; [reflexivity | now exists (String c r)].
    + rewrite T, A. split; [reflexivity|]. exists post. now rewrite <- E.
Qed.

Lemma dot_star_id (s : string) :
  all_chars (fun c => negb (is_line_terminator c)) s = true -> dot_star s = s.
Proof.
  induction s as [|c r IH]; simpl; [reflexivity|].
  intros A. apply andb_true_iff in A. destruct A as [T A].
  apply negb_true_iff in T. now rewrite T, (IH A).
Qed.

Lemma ts_match_here_sound (s stamp target : string) :
  ts_match_here s = Some (stamp, target) ->
  stamp <> EmptyString /\
  all_chars is_digit stamp = true /\
  (startsWith target "http:" = true \/ startsWith target "https:" = true) /\
  all_chars (fun c => negb (is_line_terminator c)) target = true /\
  exists post, s = stamp ++ "id_/" ++ target ++ post.
Proof.
  unfold ts_match_here.
  destruct (span_digits s) as [digits r] eqn:S.
  destruct (span_digits_spec s digits r S) as [-> A].
  destruct digits as [|c d]; [discriminate|].
  destruct (strip_prefix "id_/" r) as [r1|] eqn:E1; [|discriminate].
  apply strip_prefix_spec in E1. subst r.
  destruct (strip_prefix "http" r1) as [r2|] eqn:E2; [|discriminate].
  apply strip_prefix_spec in E2. subst r1.
  destruct (strip_prefix "s:" r2) as [r3|] eqn:E3.
  - apply strip_prefix_spec in E3. subst r2.
    intros E. inversion E; subst. clear E.
    destruct (dot_star_spec r3) as [T [post P]].
    repeat split;
      [discriminate | exact A | right; apply startsWith_spec; now eexists | exact T |].
    exists post. simpl. now rewrite <- P.
  - destruct (strip_prefix ":" r2) as [r3|] eqn:E4; [|discriminate].
    apply strip_prefix_spec in E4. subst r2.
    intros E. inversion E; subst. clear E.
    destruct (dot_star_spec r3) as [T [post P]].
    repeat split;
      [discriminate | exact A | left; apply startsWith_spec; now eexists | exact T |].
    exists post. simpl. now rewrite <- P.
Qed.

(** What [match(TS_URL)] returns is in the string: a run of digits,
    then [id_/], then a URL that starts with [http:] or [https:] and
    stays on one line. *)
Theorem ts_match_sound (s stamp target : string) :
  ts_match s = Some (stamp, target) ->
  stamp <> EmptyString /\
  all_chars is_digit stamp = true /\
  (startsWith target "http:" = true \/ startsWith target "https:" = true) /\
  all_chars (fun c => negb (is_line_terminator c)) target = true /\
  exists pre post, s = pre ++ stamp ++ "id_/" ++ target ++ post.
Proof.
  induction s as [|c r IH]; [discriminate|].
  simpl. destruct (ts_match_here (String c r)) as [m|] eqn:E.
  - intros H. inversion H; subst.
    destruct (ts_match_here_sound _ _ _ E) as [N [A [S [T [post P]]]]].
    repeat split; trivial. exists EmptyString, post. exact P.
  - intros H. destruct (IH H) as [N [A [S [T [pre [post P]]]]]].
    repeat split; trivial. exists (String c pre), post. simpl. now rewrite P.
Qed.

Lemma ts_match_sound_witness :
  exists pre post,
    capture_a_jan =
    pre ++ "20200101000000" ++ "id_/" ++ "https://site.test/a.html" ++ post.
Proof.
  apply (ts_match_sound capture_a_jan "20200101000000" "https://site.test/a.html" eq_refl).
Defined.

Lemma ts_match_here_build (stamp target : string) :
  stamp <> EmptyString ->
  all_chars is_digit stamp = true ->
  startsWith target "http:" = true \/ startsWith target "https:" = true ->
  all_chars (fun c => negb (is_line_terminator c)) target = true ->
  ts_match_here (stamp ++ "id_/" ++ target) = Some (stamp, target).
Proof.
  intros N A S T. unfold ts_match_here.
  change (stamp ++ "id_/" ++ target) with (stamp ++ String "i" ("d_/" ++ target)).
  rewrite (span_digits_append stamp ("d_/" ++ target) "i" A eq_refl).
  destruct stamp as [|c d]; [congruence|].
  change (String "i" ("d_/" ++ target)) with ("id_/" ++ target).
  rewrite strip_prefix_append.
  destruct S as [S|S]; apply startsWith_spec in S; destruct S as [r ->].
  - rewrite all_chars_append in T. apply andb_true_iff in T.
    change ("http:" ++ r) with ("http" ++ String ":" r).
    rewrite strip_prefix_append. simpl strip_prefix. cbv iota.
    now rewrite (dot_star_id r (proj2 T)).
  - rewrite all_chars_append in T. apply andb_true_iff in T.
    change ("https:" ++ r) with ("http" ++ "s:" ++ r).
    rewrite strip_prefix_append, strip_prefix_append.
    now rewrite (dot_star_id r (proj2 T)).
Qed.

Lemma ts_match_unfold (s : string) :
  ts_match s =
  match ts_match_here s with
  | Some m => Some m
  | None =>
      match s with
      | EmptyString => None
      | String _ r => ts_match r
      end
  end.
Proof. destruct s; reflexivity. Qed.

Lemma ts_match_here_no_digit (c : ascii) (r : string) :
  is_digit c = false -> ts_match_here (String c r) = None.
Proof. intros D. unfold ts_match_here. simpl. now rewrite D. Qed.

(** A capture URL built from a prefix without digits, a timestamp and
    a one-line [http(s)] URL is parsed back into that timestamp and that
    URL. *)
Theorem ts_match_build (pre stamp target : string) :
  all_chars (fun c => negb (is_digit c)) pre = true ->
  stamp <> EmptyString ->
  all_chars is_digit stamp = true ->
  startsWith target "http:" = true \/ startsWith target "https:" = true ->
  all_chars (fun c => negb (is_line_terminator c)) target = true ->
  ts_match (pre ++ stamp ++ "id_/" ++ target) = Some (stamp, target).
Proof.
  intros P N A S T.
  pose proof (ts_match_here_build stamp target N A S T) as H.
  induction pre as [|c r IH].
  - change (ts_match (stamp ++ "id_/" ++ target) = Some (stamp, target)).
    rewrite ts_match_unfold. now rewrite H.
  - simpl in P. apply andb_true_iff in P. destruct P as [D P].
    apply negb_true_iff in D.
    change (ts_match (String c (r ++ stamp ++ "id_/" ++ target)) = Some (stamp, target)).
    rewrite ts_match_unfold, (ts_match_here_no_digit c _ D). now apply IH.
Qed.

Lemma ts_match_build_witness :
  ts_match ("https://arch.test/" ++ "20200101000000" ++ "id_/" ++ "https://site.test/a.html") =
  Some ("20200101000000", "https://site.test/a.html").
Proof.
  apply (ts_match_build "https://arch.test/" "20200101000000" "https://site.test/a.html");
    try reflexivity; [discriminate | now right].
Defined.


(* ================================================================== *)
(** * The fetcher: what it follows, what it sends, what it returns *)

Lemma same_capture_trans (a b c : option (string * string)) :
  same_capture a b = true -> same_capture b c = true -> same_capture a c = true.
Proof.
  rewrite !same_capture_spec.
  intros [s1 [s2 [t [-> ->]]]] [s3 [s4 [t' [E ->]]]].
  inversion E; subst. now exists s1, s4, t'.
Qed.

(** Without the no-HTTPS flag the loop goes on only to another capture
    of the URL just fetched. *)
Lemma inspect_continue_capture url u url' :
  inspect false url u = Continue url' ->
  same_capture (ts_match url') (ts_match url) = true.
Proof.
  unfold inspect. simpl.
  destruct (redirect_status (Upstream.status u)); [|discriminate].
  destruct (truthy (Headers.get (Upstream.headers u) "location")); [|discriminate].
  destruct (same_capture _ _) eqn:C; [|discriminate].
  intros E. inversion E; subst. exact C.
Qed.

(** The loop goes on only after a redirect status other than 304, only
    to the [Location] it was given, and only when that is another
    capture of the URL just fetched or, with the no-HTTPS flag, an
    [https] URL. *)
Theorem inspect_continue noHttps url u url' :
  inspect noHttps url u = Continue url' ->
  (300 < Upstream.status u < 400)%Z /\ Upstream.status u <> 304%Z /\
  Headers.get (Upstream.headers u) "Location" = Some url' /\
  ((exists stamp stamp' target,
      ts_match url' = Some (stamp', target) /\ ts_match url = Some (stamp, target)) \/
   (noHttps = true /\ startsWith url' "https://" = true)).
Proof.
  unfold inspect. simpl.
  destruct (redirect_status (Upstream.status u)) eqn:R; [|discriminate].
  apply redirect_status_spec in R. destruct R as [R1 R2].
  destruct (Headers.get (Upstream.headers u) "location") as [location|] eqn:L;
    [|discriminate].
  destruct (truthy (Some location)); [|discriminate].
  cbn [or_empty].
  destruct (same_capture (ts_match location) (ts_match url)) eqn:C.
  - intros E. inversion E; subst.
    split; [exact R1|]. split; [exact R2|]. split; [exact L|]. left.
    apply same_capture_spec in C. destruct C as [s1 [s2 [t [E1 E2]]]].
    now exists s2, s1, t.
  - destruct noHttps; simpl; [|discriminate].
    destruct (startsWith location "https://") eqn:S; [|discriminate].
    intros E. inversion E; subst.
    split; [exact R1|]. split; [exact R2|]. split; [exact L|]. now right.
Qed.

Lemma inspect_continue_witness :
  Headers.get (Upstream.headers found_302_same_capture) "Location" = Some capture_a_feb.
Proof.
  apply (inspect_continue false capture_a_jan found_302_same_capture capture_a_feb eq_refl).
Defined.

Lemma redir_loop_same_capture P fuel : forall n url method headers body call,
  In call (fst (redir_loop P fuel n false url method headers body)) ->
  FetchCall.url call = url \/
  same_capture (ts_match (FetchCall.url call)) (ts_match url) = true.
Proof.
  induction fuel as [|fuel IH]; intros n url method headers body call;
    simpl; [tauto|].
  destruct (fetch P n _) as [u|]; simpl; [|intros [<-|[]]; now left].
  destruct (inspect false url u) as [url'|resp] eqn:I; simpl;
    [|intros [<-|[]]; now left].
  pose proof (inspect_continue_capture url u url' I) as SC.
  specialize (IH (S n) url' method headers body call).
  destruct (redir_loop P fuel (S n) false url' method headers body). simpl in *.
  intros [<-|H]; [now left|]. right.
  destruct (IH H) as [->|T]; [exact SC | now apply same_capture_trans with (ts_match url')].
Qed.

(** Without the no-HTTPS flag every URL the fetcher calls, other than
    the one it was given, is another capture of the same page: the
    timestamp pattern matches both, with the same captured URL. *)
Theorem redirects_stay_on_capture P fuel url method headers body call :
  noHttpsOf headers = false ->
  In call (fst (fetchWithRedirCheck P fuel url method headers body)) ->
  FetchCall.url call = url \/
  exists stamp stamp' target,
    ts_match (FetchCall.url call) = Some (stamp', target) /\
    ts_match url = Some (stamp, target).
Proof.
  intros N I. unfold fetchWithRedirCheck in I. rewrite N in I.
  destruct (redir_loop_same_capture P fuel 0 url method _ body call I) as [E|C];
    [now left | right].
  apply same_capture_spec in C. destruct C as [s1 [s2 [t [E1 E2]]]].
  now exists s2, s1, t.
Qed.

Lemma redirects_stay_on_capture_witness :
  let call := FetchCall.mk capture_a_feb "GET" [] None in
  In call (fst (fetchWithRedirCheck (scripted_net [found_302_same_capture; ok_200]) 2
                  capture_a_jan "GET" [] None)) /\
  (FetchCall.url call = capture_a_jan \/
   exists stamp stamp' target,
     ts_match (FetchCall.url call) = Some (stamp', target) /\
     ts_match capture_a_jan = Some (stamp, target)).
Proof.
  intros call.
  assert (I : In call (fst (fetchWithRedirCheck
                              (scripted_net [found_302_same_capture; ok_200]) 2
                              capture_a_jan "GET" [] None)))
    by (right; left; reflexivity).
  split; [exact I|].
  exact (redirects_stay_on_capture (scripted_net [found_302_same_capture; ok_200]) 2
           capture_a_jan "GET" [] None call eq_refl I).
Defined.

(** A URL that is not a capture is fetched once, whatever the upstream
    answers: without the no-HTTPS flag the loop never turns. *)
Theorem plain_url_fetched_once P fuel url method headers body :
  ts_match url = None ->
  noHttpsOf headers = false ->
  fst (fetchWithRedirCheck P (S fuel) url method headers body) =
    [FetchCall.mk url method headers body] /\
  snd (fetchWithRedirCheck P (S fuel) url method headers body) <> Pending.
Proof.
  intros M N. unfold fetchWithRedirCheck, withoutNoHttps. rewrite N. simpl.
  destruct (fetch P 0 _) as [u|]; simpl; [|split; [reflexivity | discriminate]].
  destruct (inspect false url u) as [url'|resp] eqn:I; simpl;
    [|split; [reflexivity | discriminate]].
  apply inspect_continue_capture, same_capture_spec in I.
  destruct I as [s [s' [t [_ E]]]]. congruence.
Qed.

Lemma plain_url_fetched_once_witness :
  fst (fetchWithRedirCheck (constant_net found_302_b_upstream) 5
         "https://site.test/a.html" "GET" [] None) =
    [FetchCall.mk "https://site.test/a.html" "GET" [] None].
Proof.
  apply (plain_url_fetched_once (constant_net found_302_b_upstream) 4
           "https://site.test/a.html" "GET" [] None eq_refl eq_refl).
Defined.

(** With a non-empty [X-OWT-No-HTTPS], a redirect to an [https] URL is
    followed whether or not it is a capture: the loop fetches the
    [Location] next and returns what that leads to. *)
Theorem no_https_flag_follows P fuel url method headers body u location :
  noHttpsOf headers = true ->
  fetch P 0 (FetchCall.mk url method (withoutNoHttps headers) body) = Some u ->
  (300 < Upstream.status u < 400)%Z -> Upstream.status u <> 304%Z ->
  Headers.get (Upstream.headers u) "Location" = Some location ->
  startsWith location "https://" = true ->
  fetchWithRedirCheck P (S fuel) url method headers body =
  (FetchCall.mk url method (withoutNoHttps headers) body
     :: fst (redir_loop P fuel 1 true location method (withoutNoHttps headers) body),
   snd (redir_loop P fuel 1 true location method (withoutNoHttps headers) body)).
Proof.
  intros N F R1 R2 L S. unfold fetchWithRedirCheck. rewrite N.
  apply redir_loop_continue with (u := u); [exact F|].
  unfold inspect. simpl.
  assert (R : redirect_status (Upstream.status u) = true)
    by now apply redirect_status_spec.
  change (Headers.get (Upstream.headers u) "location" = Some location) in L.
  rewrite R, L.
  assert (T : truthy (Some location) = true).
  { apply startsWith_spec in S. destruct S as [r ->]. reflexivity. }
  rewrite T. cbn [or_empty]. rewrite S.
  now destruct (same_capture _ _).
Qed.

Lemma no_https_flag_follows_witness :
  fetchWithRedirCheck (scripted_net [moved_301_https; ok_200]) 2
    "http://site.test/a.html" "GET" upgrade_headers None =
  ([FetchCall.mk "http://site.test/a.html" "GET" [("accept", "*/*")] None;
    FetchCall.mk "https://site.test/a.html" "GET" [("accept", "*/*")] None],
   Returned (Response.of_fetch ok_200)).
Proof.
  apply (no_https_flag_follows (scripted_net [moved_301_https; ok_200]) 1
           "http://site.test/a.html" "GET" upgrade_headers None
           moved_301_https "https://site.test/a.html");
    try reflexivity; [simpl; lia | discriminate].
Defined.

(** On every hop the fetcher sends the method, the body and the headers
    it was given; only a non-empty [X-OWT-No-HTTPS] is taken out. *)
Theorem every_hop_sends_the_same P fuel url method headers body call :
  In call (fst (fetchWithRedirCheck P fuel url method headers body)) ->
  FetchCall.method call = method /\
  FetchCall.body call = body /\
  forall name,
    Headers.get (FetchCall.headers call) name =
    if Headers.name_eqb "X-OWT-No-HTTPS" name && noHttpsOf headers then None
    else Headers.get headers name.
Proof.
  intros I. unfold fetchWithRedirCheck in I.
  destruct (redir_loop_calls P fuel 0 _ url method _ body call I) as [M [H B]].
  repeat split; trivial. intros name. rewrite H. unfold withoutNoHttps.
  destruct (noHttpsOf headers).
  - rewrite HeadersFacts.get_delete, andb_true_r.
    now destruct (Headers.name_eqb "X-OWT-No-HTTPS" name).
  - now rewrite andb_false_r.
Qed.

Lemma every_hop_sends_the_same_witness :
  let call := FetchCall.mk "https://site.test/a.html" "GET" [("accept", "*/*")] None in
  In call (fst (fetchWithRedirCheck (scripted_net [moved_301_https; ok_200]) 2
                  "http://site.test/a.html" "GET" upgrade_headers None)) /\
  Headers.get (FetchCall.headers call) "X-OWT-No-HTTPS" = None /\
  Headers.get (FetchCall.headers call) "Accept" = Some "*/*".
Proof.
  intros call.
  assert (I : In call (fst (fetchWithRedirCheck
                              (scripted_net [moved_301_https; ok_200]) 2
                              "http://site.test/a.html" "GET" upgrade_headers None)))
    by (right; left; reflexivity).
  destruct (every_hop_sends_the_same (scripted_net [moved_301_https; ok_200]) 2
              "http://site.test/a.html" "GET" upgrade_headers None call I)
    as [_ [_ H]].
  split; [exact I|].
  split; [exact (H "X-OWT-No-HTTPS") | exact (H "Accept")].
Defined.

Lemma redir_loop_returned P fuel : forall n noHttps url method headers body calls resp,
  redir_loop P fuel n noHttps url method headers body = (calls, Returned resp) ->
  exists before call u,
    calls = (before ++ [call])%list /\
    fetch P (n + List.length before) call = Some u /\
    inspect noHttps (FetchCall.url call) u = Break resp.
Proof.
  induction fuel as [|fuel IH]; intros n noHttps url method headers body calls resp;
    simpl; [discriminate|].
  destruct (fetch P n _) as [u|] eqn:F; [|discriminate].
  destruct (inspect noHttps url u) as [url'|resp'] eqn:I.
  - destruct (redir_loop P fuel (S n) noHttps url' method headers body)
      as [calls' r] eqn:E.
    intros H. inversion H; subst.
    destruct (IH _ _ _ _ _ _ _ _ E) as [before [call [u' [-> [F' I']]]]].
    exists (FetchCall.mk url method headers body :: before), call, u'.
    repeat split; trivial. simpl. now rewrite Nat.add_succ_r.
  - intros H. inversion H; subst.
    exists [], (FetchCall.mk url method headers body), u.
    simpl. rewrite Nat.add_0_r. now repeat split.
Qed.

(** What the fetcher returns is what its last call of [fetch] resolved
    to: same status, status text, headers and body. *)
Theorem fetcher_returns_last_response P fuel url method headers body calls resp :
  fetchWithRedirCheck P fuel url method headers body = (calls, Returned resp) ->
  exists before call u,
    calls = (before ++ [call])%list /\
    fetch P (List.length before) call = Some u /\
    Response.status resp = Upstream.status u /\
    Response.statusText resp = Upstream.statusText u /\
    Response.headers resp = Upstream.headers u /\
    Response.body resp = Upstream.body u.
Proof.
  intros H. unfold fetchWithRedirCheck in H.
  destruct (redir_loop_returned P fuel _ _ _ _ _ _ _ _ H)
    as [before [call [u [E [F I]]]]].
  exists before, call, u. split; [exact E|]. split; [exact F|].
  destruct (inspect_break _ _ _ _ I) as [->|[l [s [t [_ [_ [_ [_ ->]]]]]]]];
    now repeat split.
Qed.

Lemma fetcher_returns_last_response_witness :
  exists before call u,
    [FetchCall.mk capture_a_jan "GET" [] None; FetchCall.mk capture_a_feb "GET" [] None] =
      (before ++ [call])%list /\
    fetch (scripted_net [found_302_same_capture; ok_200]) (List.length before) call = Some u /\
    Response.status (Response.of_fetch ok_200) = Upstream.status u /\
    Response.statusText (Response.of_fetch ok_200) = Upstream.statusText u /\
    Response.headers (Response.of_fetch ok_200) = Upstream.headers u /\
    Response.body (Response.of_fetch ok_200) = Upstream.body u.
Proof.
  apply (fetcher_returns_last_response (scripted_net [found_302_same_capture; ok_200]) 2
           capture_a_jan "GET" [] None). reflexivity.
Defined.


(* ================================================================== *)
(** * The header translator: what passes through *)

Lemma entries_of_fst h k p : In p (Headers.entries_of h k) -> fst p = k.
Proof.
  unfold Headers.entries_of. destruct (String.eqb k "set-cookie").
  - rewrite in_map_iff. intros [v [<- _]]. reflexivity.
  - destruct (Headers.get h k); simpl; [|tauto]. intros [<-|[]]. reflexivity.
Qed.

Lemma copy_fold_other (n : string) l : forall acc,
  (forall p, In p l -> Headers.name_eqb (fst p) n = false) ->
  Headers.get
    (fold_left
       (fun proxyHeaders p =>
          if dropped (fst p) then proxyHeaders
          else Headers.set (fst p) (snd p) proxyHeaders) l acc) n =
  Headers.get acc n.
Proof.
  induction l as [|p r IH]; intros acc H; simpl; [reflexivity|].
  rewrite IH by (intros q I; apply H; now right).
  destruct (dropped (fst p)); [reflexivity|].
  now rewrite HeadersFacts.get_set, (H p (or_introl eq_refl)).
Qed.

Lemma entries_other h n l :
  (forall k, In k l -> lower k = k) -> ~ In (lower n) l ->
  forall p, In p (flat_map (Headers.entries_of h) l) ->
            Headers.name_eqb (fst p) n = false.
Proof.
  intros L N p I. apply in_flat_map in I. destruct I as [k [K I]].
  apply entries_of_fst in I. subst k.
  destruct (Headers.name_eqb (fst p) n) eqn:E; [|reflexivity].
  apply HeadersFacts.name_eqb_true in E. rewrite (L _ K) in E. congruence.
Qed.

(** The loop of lines 50-59 copies every header it does not drop, the
    value as [set] stores it.  ([set-cookie], the one name that is
    iterated once per value, keeps its last value only.) *)
Lemma copyRequestHeaders_get request n :
  lower n <> "set-cookie" ->
  Headers.get (copyRequestHeaders request) n =
  if dropped (lower n) then None
  else option_map Headers.normalize (Headers.get (Request.headers request) n).
Proof.
  intros SC. unfold copyRequestHeaders, Headers.entries.
  set (h := Request.headers request).
  destruct (in_dec string_dec (lower n) (Headers.names h)) as [I|NI].
  - destruct (in_split _ _ I) as [l1 [l2 E]].
    pose proof (HeadersFacts.names_NoDup h) as ND. rewrite E in ND.
    apply NoDup_remove_2 in ND.
    assert (L : forall k, In k (l1 ++ lower n :: l2)%list -> lower k = k).
    { intros k K. apply (HeadersFacts.names_lower h). now rewrite E. }
    rewrite E, flat_map_app. simpl flat_map.
    rewrite !fold_left_app.
    rewrite copy_fold_other.
    2:{ apply entries_other.
        - intros k K. apply L. apply in_or_app. right. now right.
        - intros K. apply ND. apply in_or_app. now right. }
    assert (G : Headers.get h (lower n) = Headers.get h n).
    { apply HeadersFacts.get_congr. rewrite HeadersFacts.name_eqb_lower_l.
      apply HeadersFacts.name_eqb_refl. }
    assert (Z : Headers.get
                  (fold_left
                     (fun proxyHeaders p =>
                        if dropped (fst p) then proxyHeaders
                        else Headers.set (fst p) (snd p) proxyHeaders)
                     (flat_map (Headers.entries_of h) l1) Headers.empty) n = None).
    { rewrite copy_fold_other; [reflexivity|].
      apply entries_other.
      - intros k K. apply L. apply in_or_app. now left.
      - intros K. apply ND. apply in_or_app. now left. }
    assert (EO : Headers.entries_of h (lower n) =
                 match Headers.get h n with
                 | Some v => [(lower n, v)]
                 | None => []
                 end).
    { unfold Headers.entries_of. apply String.eqb_neq in SC. now rewrite SC, G. }
    rewrite EO.
    destruct (Headers.get h n) as [v|]; simpl.
    + destruct (dropped (lower n)); [exact Z|].
      rewrite HeadersFacts.get_set, HeadersFacts.name_eqb_lower_l.
      now rewrite HeadersFacts.name_eqb_refl.
    + rewrite Z. now destruct (dropped (lower n)).
  - rewrite copy_fold_other.
    + assert (G : Headers.get h n = None).
      { apply HeadersFacts.has_get. destruct (Headers.has h n) eqn:E; [|reflexivity].
        apply HeadersFacts.has_names in E. contradiction. }
      rewrite G. now destruct (dropped (lower n)).
    + apply entries_other; [apply HeadersFacts.names_lower | exact NI].
Qed.

Lemma name_eqb_differs (k name : string) :
  lower name <> lower k -> Headers.name_eqb k name = false.
Proof. intros H. apply String.eqb_neq. congruence. Qed.

Lemma applyReferrer_get P proxyUrl request headers headers' n :
  applyReferrer P proxyUrl request headers = Returned headers' ->
  (truthy (Headers.get (Request.headers request) "X-Proxy-Referer") = true ->
   ~ In (lower n) ["referer"; "origin"; "sec-fetch-site"]) ->
  Headers.get headers' n = Headers.get headers n.
Proof.
  unfold applyReferrer. intros A H.
  change (Headers.get (Request.headers request) "X-Proxy-Referer")
    with (Headers.get (Request.headers request) "x-proxy-referer") in H.
  destruct (truthy (Headers.get (Request.headers request) "x-proxy-referer"));
    [|inversion A; now subst].
  specialize (H eq_refl). simpl in H.
  assert (N1 : Headers.name_eqb "Referer" n = false)
    by (apply name_eqb_differs; simpl; intuition).
  assert (N2 : Headers.name_eqb "Origin" n = false)
    by (apply name_eqb_differs; simpl; intuition).
  assert (N3 : Headers.name_eqb "Sec-Fetch-Site" n = false)
    by (apply name_eqb_differs; simpl; intuition).
  destruct (URL_origin P _) as [origin|]; [|discriminate].
  destruct (URL_origin P proxyUrl) as [target|]; [|discriminate].
  destruct (negb _); inversion A; subst;
    now rewrite ?HeadersFacts.get_set, ?HeadersFacts.get_delete,
      ?N3, ?HeadersFacts.get_set, ?HeadersFacts.get_delete, ?N2,
      ?HeadersFacts.get_set, ?N1.
Qed.

(** Every other header goes upstream as it came in: a header that the
    loop does not drop, that is not [Host], [Set-Cookie] or
    [X-OWT-No-HTTPS], and that a non-empty override does not replace,
    has in every call of [fetch] the value it has in the request, as
    [headers.set] stores it (without leading and trailing white
    space). *)
Theorem other_headers_pass_through P fuel proxyUrl request call name :
  In call (fst (handleLiveWebProxy P fuel proxyUrl request)) ->
  startsWith (lower name) "cf-" = false ->
  startsWith (lower name) "x-pywb-" = false ->
  ~ In (lower name) ["x-proxy-referer"; "host"; "set-cookie"; "x-owt-no-https"] ->
  (truthy (Headers.get (Request.headers request) "X-Proxy-Referer") = true ->
   ~ In (lower name) ["referer"; "origin"; "sec-fetch-site"]) ->
  (truthy (Headers.get (Request.headers request) "X-Proxy-User-Agent") = true ->
   ~ In (lower name) ["x-proxy-user-agent"; "user-agent"]) ->
  (truthy (Headers.get (Request.headers request) "X-Proxy-Cookie") = true ->
   lower name <> "cookie") ->
  Headers.get (FetchCall.headers call) name =
  option_map Headers.normalize (Headers.get (Request.headers request) name).
Proof.
  intros I D1 D2 X R U C.
  destruct (handleLiveWebProxy_calls P fuel proxyUrl request call I)
    as [proxyHeaders [Hp [_ [Hh _]]]].
  apply proxyHeadersOf_returned in Hp. destruct Hp as [headers [A ->]].
  simpl in X.
  assert (N1 : Headers.name_eqb "host" name = false)
    by (apply name_eqb_differs; simpl; intuition).
  assert (N2 : Headers.name_eqb "X-OWT-No-HTTPS" name = false)
    by (apply name_eqb_differs; simpl; intuition).
  assert (G : Headers.get headers name =
              option_map Headers.normalize (Headers.get (Request.headers request) name)).
  { rewrite (applyReferrer_get P _ request _ headers name A R).
    rewrite copyRequestHeaders_get by intuition.
    assert (D : dropped (lower name) = false).
    { unfold dropped. rewrite D1, D2. simpl. apply String.eqb_neq. intuition. }
    now rewrite D. }
  rewrite Hh, <- G. unfold withoutNoHttps, applyCookie, applyUserAgent.
  change (Headers.get (Request.headers request) "X-Proxy-User-Agent")
    with (Headers.get (Request.headers request) "x-proxy-user-agent") in U.
  change (Headers.get (Request.headers request) "X-Proxy-Cookie")
    with (Headers.get (Request.headers request) "x-proxy-cookie") in C.
  destruct (truthy (Headers.get (Request.headers request) "x-proxy-cookie")) eqn:TC;
    destruct (truthy (Headers.get (Request.headers request) "x-proxy-user-agent")) eqn:TU;
    destruct (noHttpsOf _);
    repeat first
      [ rewrite HeadersFacts.get_delete, N2
      | rewrite HeadersFacts.get_delete, N1
      | rewrite HeadersFacts.get_set,
          (name_eqb_differs "Cookie" name (C eq_refl))
      | rewrite HeadersFacts.get_set,
          (name_eqb_differs "User-Agent" name
             (fun E => U eq_refl (or_intror (or_introl (eq_sym E)))))
      | rewrite HeadersFacts.get_delete,
          (name_eqb_differs "x-proxy-user-agent" name
             (fun E => U eq_refl (or_introl (eq_sym E)))) ];
    reflexivity.
Qed.

Lemma other_headers_pass_through_witness :
  let call :=
    FetchCall.mk "https://site.test/a.html" "GET"
      [("accept-language", "en"); ("origin", "https://app.test");
       ("user-agent", "Replay/1.0")] None in
  let call2 :=
    FetchCall.mk "https://site.test/a.html" "GET"
      [("accept", "text/html,"); ("x-proxy-cookie", "a=1,");
       ("User-Agent", "Replay/1.0,"); ("Cookie", "a=1,")] None in
  In call (fst (handleLiveWebProxy (constant_net ok_200) 1
                  "https://site.test/a.html" browser_get)) /\
  Headers.get (FetchCall.headers call) "Accept-Language" = Some "en" /\
  Headers.get (FetchCall.headers call) "Origin" = Some "https://app.test" /\
  In call2 (fst (handleLiveWebProxy (constant_net ok_200) 1
                   "https://site.test/a.html" twice_values_get)) /\
  Headers.get (FetchCall.headers call2) "Accept" = Some "text/html,".
Proof.
  intros call call2.
  assert (I : In call (fst (handleLiveWebProxy (constant_net ok_200) 1
                              "https://site.test/a.html" browser_get)))
    by (left; reflexivity).
  assert (I2 : In call2 (fst (handleLiveWebProxy (constant_net ok_200) 1
                                "https://site.test/a.html" twice_values_get)))
    by (left; reflexivity).
  split; [exact I|]. split; [|split; [|split; [exact I2|]]].
  - apply (other_headers_pass_through (constant_net ok_200) 1
             "https://site.test/a.html" browser_get call "Accept-Language" I);
      try reflexivity; try discriminate; simpl; intuition discriminate.
  - apply (other_headers_pass_through (constant_net ok_200) 1
             "https://site.test/a.html" browser_get call "Origin" I);
      try reflexivity; try discriminate; simpl; intuition discriminate.
  - apply (other_headers_pass_through (constant_net ok_200) 1
             "https://site.test/a.html" twice_values_get call2 "Accept" I2);
      try reflexivity; try discriminate; simpl; intuition discriminate.
Defined.


(* ================================================================== *)
(** * The composer: what passes through, what is added *)

Lemma has_of_get h n v : Headers.get h n = Some v -> Headers.has h n = true.
Proof. intros H. apply HeadersFacts.has_true_get. congruence. Qed.

(** The headers of the upstream response reach the client: every
    header but the eight the composer writes has the upstream value, and
    so has [Content-Type] when the upstream response has one. *)
Theorem upstream_headers_pass_through request resp :
  let out := respond request resp in
  (forall name,
     ~ In (lower name)
         ["content-type"; "x-proxy-set-cookie"; "x-redirect-status";
          "x-redirect-statustext"; "x-orig-location"; "x-orig-ts";
          "access-control-allow-origin"; "access-control-allow-credentials";
          "access-control-expose-headers"] ->
     Headers.get (Outgoing.headers out) name =
     Headers.get (Response.headers resp) name) /\
  (forall v,
     Headers.get (Response.headers resp) "Content-Type" = Some v ->
     Headers.get (Outgoing.headers out) "Content-Type" = Some v).
Proof.
  intros out. subst out. split.
  - intros name N. simpl in N.
    rewrite respond_get by (apply name_eqb_differs; simpl; intuition).
    rewrite addCORSHeaders_get by (apply name_eqb_differs; simpl; intuition).
    rewrite collapseRedirect_get by (apply name_eqb_differs; simpl; intuition).
    apply copyResponseHeaders_get. apply name_eqb_differs; simpl; intuition.
  - intros v V.
    assert (G : Headers.get (Headers.copy (addCORSHeaders
                 (fst (collapseRedirect (copyResponseHeaders resp) resp)) request resp))
                "Content-Type" = Some v).
    { rewrite HeadersFacts.get_copy.
      rewrite addCORSHeaders_get by reflexivity.
      rewrite collapseRedirect_get by reflexivity.
      now rewrite copyResponseHeaders_get by reflexivity. }
    unfold respond. destruct (collapseRedirect _ _) as [headers status].
    simpl fst in G. unfold new_Response. cbn [Outgoing.headers].
    match goal with
    | |- context [match ?b with BodyNull => _ | BodyText _ => _ | BodyStream _ => _ end] =>
        destruct b
    end; trivial.
    now rewrite (has_of_get _ _ _ G).
Qed.

Lemma upstream_headers_pass_through_witness :
  Headers.get (Outgoing.headers (respond example_origin_get ok_200_cookies))
    "X-Frame-Options" = Some "DENY".
Proof.
  apply (proj1 (upstream_headers_pass_through example_origin_get ok_200_cookies)).
  simpl. intuition discriminate.
Defined.

(** A non-empty upstream [Set-Cookie] is shown a second time as
    [X-Proxy-Set-Cookie], as [headers.set] stores it (without leading
    and trailing white space); several [Set-Cookie] headers are joined
    by a comma and a space. *)
Theorem set_cookie_exposed request resp cookies :
  Headers.get (Response.headers resp) "Set-Cookie" = Some cookies ->
  cookies <> EmptyString ->
  Headers.get (Outgoing.headers (respond request resp)) "X-Proxy-Set-Cookie" =
    Some (Headers.normalize cookies) /\
  Headers.get (Outgoing.headers (respond request resp)) "Set-Cookie" = Some cookies.
Proof.
  intros C N. split.
  - rewrite respond_get by reflexivity.
    rewrite addCORSHeaders_get by reflexivity.
    rewrite collapseRedirect_get by reflexivity.
    unfold copyResponseHeaders.
    change (Headers.get (Response.headers resp) "set-cookie") with
      (Headers.get (Response.headers resp) "Set-Cookie").
    rewrite C, (truthy_Some cookies N). cbn [or_empty].
    apply HeadersFacts.get_set_same.
  - rewrite <- C.
    rewrite respond_get by reflexivity.
    rewrite addCORSHeaders_get by reflexivity.
    rewrite collapseRedirect_get by reflexivity.
    now apply copyResponseHeaders_get.
Qed.

Lemma set_cookie_exposed_witness :
  (Headers.get (Outgoing.headers (respond plain_get ok_200_cookies)) "X-Proxy-Set-Cookie" =
     Some "a=1, b=2" /\
   Headers.get (Outgoing.headers (respond plain_get ok_200_cookies)) "Set-Cookie" =
     Some "a=1, b=2") /\
  Headers.get (Outgoing.headers (respond plain_get ok_200_cookie_twice))
    "X-Proxy-Set-Cookie" = Some "a=1,".
Proof.
  split.
  - apply (set_cookie_exposed plain_get ok_200_cookies "a=1, b=2");
      [reflexivity | discriminate].
  - apply (set_cookie_exposed plain_get ok_200_cookie_twice "a=1, ");
      [reflexivity | discriminate].
Defined.

(** The error text is only ever sent for an upstream status of 400 or
    more, with that status, and never when the upstream response has a
    non-empty [memento-datetime]. *)
Theorem error_text_only_for_upstream_errors request resp text :
  Outgoing.body (respond request resp) = BodyText text ->
  (400 <= Response.status resp)%Z /\
  Outgoing.status (respond request resp) = Response.status resp /\
  text = errorBody (Response.status resp) /\
  truthy (Headers.get (Response.headers resp) "memento-datetime") = false.
Proof.
  rewrite respond_body, respond_status.
  destruct (includesZ redirectStatuses (Response.status resp)).
  - simpl. destruct (Response.body resp); discriminate.
  - destruct (400 <=? Response.status resp)%Z eqn:S; simpl.
    + destruct (truthy _); simpl.
      * destruct (Response.body resp); discriminate.
      * intros E. inversion E. apply Z.leb_le in S. now repeat split.
    + destruct (Response.body resp); discriminate.
Qed.

Lemma error_text_only_for_upstream_errors_witness :
  (400 <= Response.status not_found_404)%Z /\
  Outgoing.status (respond plain_get not_found_404) = Response.status not_found_404.
Proof.
  destruct (error_text_only_for_upstream_errors plain_get not_found_404
              "Sorry, this page was not found or could not be loaded: (Error 404)"
              eq_refl) as [A [B _]].
  exact (conj A B).
Defined.

Lemma all_chars_impl (f g : ascii -> bool) (s : string) :
  (forall c, f c = true -> g c = true) ->
  all_chars f s = true -> all_chars g s = true.
Proof.
  intros H. induction s as [|c r IH]; simpl; [reflexivity|].
  intros A. apply andb_true_iff in A. destruct A as [C A].
  now rewrite (H c C), (IH A).
Qed.

Lemma digit_not_whitespace (c : ascii) :
  is_digit c = true -> negb (Headers.is_http_whitespace c) = true.
Proof.
  destruct c as [[] [] [] [] [] [] [] []]; vm_compute; congruence.
Qed.

(** The digits of a capture are stored as they are. *)
Lemma ts_match_stamp_stored (s stamp target : string) :
  ts_match s = Some (stamp, target) -> Headers.normalize stamp = stamp.
Proof.
  intros M. apply normalize_clean.
  apply all_chars_impl with (f := is_digit); [exact digit_not_whitespace|].
  revert M. induction s as [|c r IH]; [discriminate|].
  rewrite ts_match_unfold.
  destruct (ts_match_here (String c r)) as [m|] eqn:E; [|exact IH].
  intros H. inversion H; subst. now apply ts_match_here_sound in E.
Qed.

(** A redirect to a capture that the fetcher does not follow is
    described to the client: status 200 with the upstream status text,
    [x-redirect-status], [x-orig-ts] with the digits of the capture, and
    [x-orig-location] with the whole [Location] (not the URL captured
    in it), as [headers.set] stores it: without leading and trailing
    white space. *)
Theorem capture_redirect_described request noHttps url u resp location stamp target :
  inspect noHttps url u = Break resp ->
  In (Upstream.status u) [301; 302; 303; 307; 308]%Z ->
  Headers.get (Upstream.headers u) "Location" = Some location ->
  ts_match location = Some (stamp, target) ->
  let out := respond request resp in
  Outgoing.status out = 200%Z /\
  Outgoing.statusText out = Some (Upstream.statusText u) /\
  Headers.get (Outgoing.headers out) "x-redirect-status" =
    Some (toString (Upstream.status u)) /\
  Headers.get (Outgoing.headers out) "x-orig-location" =
    Some (Headers.normalize location) /\
  Headers.get (Outgoing.headers out) "x-orig-ts" = Some stamp.
Proof.
  intros I S L M out. subst out.
  assert (R : resp = Response.annotate target stamp (Response.of_fetch u)).
  { destruct (inspect_break _ _ _ _ I) as [->|[l [s [t [L' [M' [_ [_ ->]]]]]]]].
    - exfalso. revert I. unfold inspect. simpl.
      apply redirectStatuses_spec, redirectStatuses_redirect in S. rewrite S.
      change (Headers.get (Upstream.headers u) "location") with
        (Headers.get (Upstream.headers u) "Location").
      rewrite L, (truthy_Some location (ts_match_some_nonempty _ _ M)).
      cbn [or_empty]. rewrite M.
      destruct (same_capture _ _); [discriminate|].
      destruct (noHttps && _); [discriminate|].
      intros E. inversion E.
    - rewrite L in L'. inversion L'; subst. rewrite M in M'. now inversion M'. }
  subst resp. apply redirectStatuses_spec in S.
  destruct (ts_match_nonempty _ _ _ M) as [N1 N2].
  split.
  { rewrite respond_status.
    change (Response.status (Response.annotate target stamp (Response.of_fetch u)))
      with (Upstream.status u).
    now rewrite S. }
  split; [unfold respond; now destruct (collapseRedirect _ _)|].
  rewrite !respond_get by reflexivity.
  rewrite !addCORSHeaders_get by reflexivity.
  unfold collapseRedirect.
  change (Response.status (Response.annotate target stamp (Response.of_fetch u)))
    with (Upstream.status u).
  change (Response.headers (Response.annotate target stamp (Response.of_fetch u)))
    with (Upstream.headers u).
  change (Response.ts (Response.annotate target stamp (Response.of_fetch u)))
    with (Some stamp).
  rewrite S.
  change (Headers.get (Upstream.headers u) "location") with
    (Headers.get (Upstream.headers u) "Location").
  rewrite L, (truthy_Some location (ts_match_some_nonempty _ _ M)),
    (truthy_Some stamp N1).
  cbn [or_empty fst]. repeat split; get_through;
    rewrite ?normalize_toString, ?(ts_match_stamp_stored _ _ _ M); reflexivity.
Qed.

Lemma capture_redirect_described_witness :
  (let out := respond plain_get
                (Response.annotate "https://site.test/b.html" "20200103000000"
                   (Response.of_fetch found_302_other_capture)) in
   Headers.get (Outgoing.headers out) "x-orig-location" =
     Some "https://arch.test/20200103000000id_/https://site.test/b.html" /\
   Headers.get (Outgoing.headers out) "x-orig-ts" = Some "20200103000000") /\
  (let out := respond plain_get
                (Response.annotate "https://site.test/b.html, " "20200103000000"
                   (Response.of_fetch found_302_other_capture_twice)) in
   Headers.get (Outgoing.headers out) "x-orig-location" =
     Some "https://arch.test/20200103000000id_/https://site.test/b.html,").
Proof.
  split.
  - destruct (capture_redirect_described plain_get false capture_a_jan
                found_302_other_capture
                (Response.annotate "https://site.test/b.html" "20200103000000"
                   (Response.of_fetch found_302_other_capture))
                "https://arch.test/20200103000000id_/https://site.test/b.html"
                "20200103000000" "https://site.test/b.html"
                eq_refl (or_intror (or_introl eq_refl)) eq_refl eq_refl)
      as [_ [_ [_ [A B]]]].
    exact (conj A B).
  - destruct (capture_redirect_described plain_get false capture_a_jan
                found_302_other_capture_twice
                (Response.annotate "https://site.test/b.html, " "20200103000000"
                   (Response.of_fetch found_302_other_capture_twice))
                "https://arch.test/20200103000000id_/https://site.test/b.html, "
                "20200103000000" "https://site.test/b.html, "
                eq_refl (or_intror (or_introl eq_refl)) eq_refl eq_refl)
      as [_ [_ [_ [A _]]]].
    exact A.
Defined.


(* ================================================================== *)
(** * The dispatcher *)

Lemma find_sub_unfold (sep s : string) :
  find_sub sep s =
  match strip_prefix sep s with
  | Some rest => Some (EmptyString, rest)
  | None =>
      match s with
      | EmptyString => None
      | String c r =>
          match find_sub sep r with
          | Some (before, rest) => Some (String c before, rest)
          | None => None
          end
      end
  end.
Proof. destruct s; reflexivity. Qed.

Lemma find_sub_sound (sep : string) : forall s a b,
  find_sub sep s = Some (a, b) -> s = a ++ sep ++ b.
Proof.
  induction s as [|c r IH]; intros a b; rewrite find_sub_unfold.
  - destruct (strip_prefix sep EmptyString) as [rest|] eqn:E; [|discriminate].
    intros H. inversion H; subst. now apply strip_prefix_spec in E.
  - destruct (strip_prefix sep (String c r)) as [rest|] eqn:E.
    + intros H. inversion H; subst. now apply strip_prefix_spec in E.
    + destruct (find_sub sep r) as [[a0 b0]|] eqn:F; [|discriminate].
      intros H. inversion H; subst. simpl. now rewrite (IH a0 b eq_refl).
Qed.

Lemma find_sub_none (sep : string) : forall s,
  find_sub sep s = None -> forall a b, s <> a ++ sep ++ b.
Proof.
  induction s as [|c r IH]; rewrite find_sub_unfold.
  - destruct (strip_prefix sep EmptyString) as [rest|] eqn:E; [discriminate|].
    intros _ a b H. destruct a as [|x a]; [|discriminate H].
    simpl in H. apply strip_prefix_spec in H. congruence.
  - destruct (strip_prefix sep (String c r)) as [rest|] eqn:E; [discriminate|].
    destruct (find_sub sep r) as [[a0 b0]|] eqn:F; [discriminate|].
    intros _ a b H. destruct a as [|x a].
    + simpl in H. apply strip_prefix_spec in H. congruence.
    + simpl in H. inversion H. now apply (IH eq_refl a b).
Qed.

Lemma find_sub_leftmost (sep : string) : forall s a b,
  find_sub sep s = Some (a, b) ->
  forall a' b', s = a' ++ sep ++ b' -> (String.length a <= String.length a')%nat.
Proof.
  induction s as [|c r IH]; intros a b; rewrite find_sub_unfold.
  - destruct (strip_prefix sep EmptyString) as [rest|] eqn:E; [|discriminate].
    intros H. inversion H. simpl. lia.
  - destruct (strip_prefix sep (String c r)) as [rest|] eqn:E.
    + intros H. inversion H. simpl. lia.
    + destruct (find_sub sep r) as [[a0 b0]|] eqn:F; [|discriminate].
      intros H a' b' S. inversion H; subst a b0.
      destruct a' as [|x a'].
      * simpl in S. apply strip_prefix_spec in S. congruence.
      * simpl in S. inversion S. simpl. apply le_n_S. now apply (IH a0 b eq_refl a' b').
Qed.

(** [find_sub] finds the first occurrence. *)
Lemma find_sub_first (sep s a b : string) :
  s = a ++ sep ++ b ->
  (forall a' b', s = a' ++ sep ++ b' -> (String.length a <= String.length a')%nat) ->
  find_sub sep s = Some (a, b).
Proof.
  intros S L.
  destruct (find_sub sep s) as [[a0 b0]|] eqn:F.
  - pose proof (find_sub_sound sep s a0 b0 F) as S0.
    pose proof (find_sub_leftmost sep s a0 b0 F a b S) as L0.
    pose proof (L a0 b0 S0) as L1.
    assert (E : a0 ++ (sep ++ b0) = a ++ (sep ++ b)) by congruence.
    destruct (append_inj_length a0 (sep ++ b0) a (sep ++ b) E ltac:(lia)) as [-> E'].
    destruct (append_inj_length sep b0 sep b E' eq_refl) as [_ ->].
    reflexivity.
  - exfalso. exact (find_sub_none sep s F a b S).
Qed.

Lemma slice_append (p s : string) : slice (String.length p) (p ++ s) = s.
Proof. induction p as [|c r IH]; simpl; [now destruct s | exact IH]. Qed.

(** The proxied target is what follows the first occurrence of the
    [Host] value and [/proxy/] in the URL, query included, when the
    [Host] value does not occur a second time. *)
Theorem proxied_target P URL_pathname fuel request host before target path :
  Request.method request <> "OPTIONS" ->
  Headers.get (Request.headers request) "Host" = Some host ->
  host <> EmptyString ->
  fix_single_slash (Request.url request) = before ++ host ++ "/proxy/" ++ target ->
  (forall a b, before ++ host ++ "/proxy/" ++ target = a ++ host ++ b ->
               (String.length before <= String.length a)%nat) ->
  (forall a b, "/proxy/" ++ target <> a ++ host ++ b) ->
  URL_pathname (fix_single_slash (Request.url request)) = Some path ->
  startsWith path "/proxy/" = true ->
  handleRequest P URL_pathname fuel request =
  handleLiveWebProxy P fuel target request.
Proof.
  intros M H N U L O Pn S. unfold handleRequest.
  apply String.eqb_neq in M. rewrite Pn, M, S.
  change (Headers.get (Request.headers request) "host") with
    (Headers.get (Request.headers request) "Host").
  rewrite H, U. cbn [or_empty].
  unfold split_second. destruct host as [|h0 host']; [congruence|].
  rewrite (find_sub_first _ _ before ("/proxy/" ++ target) eq_refl L).
  destruct (find_sub (String h0 host') ("/proxy/" ++ target)) as [[a b]|] eqn:F.
  - exfalso. exact (O a b (find_sub_sound _ _ _ _ F)).
  - now rewrite (slice_append "/proxy/" target).
Qed.

Lemma proxied_target_witness :
  handleRequest (constant_net ok_200) sample_pathname 1 proxied_get =
  handleLiveWebProxy (constant_net ok_200) 1 "https://site.test/a.html?x=1" proxied_get.
Proof.
  apply (proxied_target (constant_net ok_200) sample_pathname 1 proxied_get
           "proxy.test" "https://" "https://site.test/a.html?x=1"
           "/proxy/https://site.test/a.html").
  - discriminate.
  - reflexivity.
  - discriminate.
  - reflexivity.
  - apply (find_sub_leftmost "proxy.test" _ "https://"
             "/proxy/https://site.test/a.html?x=1"). reflexivity.
  - apply find_sub_none. reflexivity.
  - reflexivity.
  - reflexivity.
Defined.

(** When the [Host] value occurs again in the target, the target is
    cut there: [split(host, 2)] keeps the piece between the first two
    occurrences only. *)
Theorem target_cut_at_host P URL_pathname fuel request host before kept rest path :
  Request.method request <> "OPTIONS" ->
  Headers.get (Request.headers request) "Host" = Some host ->
  host <> EmptyString ->
  fix_single_slash (Request.url request) =
    before ++ host ++ ("/proxy/" ++ kept) ++ host ++ rest ->
  (forall a b, before ++ host ++ ("/proxy/" ++ kept) ++ host ++ rest = a ++ host ++ b ->
               (String.length before <= String.length a)%nat) ->
  (forall a b, ("/proxy/" ++ kept) ++ host ++ rest = a ++ host ++ b ->
               (String.length ("/proxy/" ++ kept) <= String.length a)%nat) ->
  URL_pathname (fix_single_slash (Request.url request)) = Some path ->
  startsWith path "/proxy/" = true ->
  handleRequest P URL_pathname fuel request =
  handleLiveWebProxy P fuel kept request.
Proof.
  intros M H N U L L2 Pn S. unfold handleRequest.
  apply String.eqb_neq in M. rewrite Pn, M, S.
  change (Headers.get (Request.headers request) "host") with
    (Headers.get (Request.headers request) "Host").
  rewrite H, U. cbn [or_empty].
  unfold split_second. destruct host as [|h0 host']; [congruence|].
  rewrite (find_sub_first _ _ before (("/proxy/" ++ kept) ++ String h0 host' ++ rest)
             eq_refl L).
  rewrite (find_sub_first _ _ ("/proxy/" ++ kept) rest eq_refl L2).
  now rewrite (slice_append "/proxy/" kept).
Qed.

Lemma target_cut_at_host_witness :
  handleRequest (constant_net ok_200) sample_pathname 1 self_proxied_get =
  handleLiveWebProxy (constant_net ok_200) 1 "https://" self_proxied_get.
Proof.
  apply (target_cut_at_host (constant_net ok_200) sample_pathname 1 self_proxied_get
           "proxy.test" "https://" "https://" "/a.html"
           "/proxy/https://proxy.test/a.html").
  - discriminate.
  - reflexivity.
  - discriminate.
  - reflexivity.
  - apply (find_sub_leftmost "proxy.test" _ "https://"
             "/proxy/https://proxy.test/a.html"). reflexivity.
  - apply (find_sub_leftmost "proxy.test" _ "/proxy/https://" "/a.html"). reflexivity.
  - reflexivity.
  - reflexivity.
Defined.

(** A [Host] value that does not occur in the URL makes the handler
    throw before any call of [fetch]: [split] gives one piece, and
    [slice] is taken of [undefined]. *)
Theorem host_must_occur P URL_pathname fuel request host path :
  Request.method request <> "OPTIONS" ->
  Headers.get (Request.headers request) "Host" = Some host ->
  host <> EmptyString ->
  (forall a b, fix_single_slash (Request.url request) <> a ++ host ++ b) ->
  URL_pathname (fix_single_slash (Request.url request)) = Some path ->
  startsWith path "/proxy/" = true ->
  handleRequest P URL_pathname fuel request = ([], Threw).
Proof.
  intros M H N O Pn S. unfold handleRequest.
  apply String.eqb_neq in M. rewrite Pn, M, S.
  change (Headers.get (Request.headers request) "host") with
    (Headers.get (Request.headers request) "Host").
  rewrite H. cbn [or_empty].
  unfold split_second. destruct host as [|h0 host']; [congruence|].
  destruct (find_sub (String h0 host') (fix_single_slash (Request.url request)))
    as [[a b]|] eqn:F; [|reflexivity].
  exfalso. exact (O a b (find_sub_sound _ _ _ _ F)).
Qed.

Lemma host_must_occur_witness :
  handleRequest (constant_net ok_200) sample_pathname 1 wrong_host_get = ([], Threw).
Proof.
  apply (host_must_occur (constant_net ok_200) sample_pathname 1 wrong_host_get
           "other.test" "/proxy/https://site.test/a.html").
  - discriminate.
  - reflexivity.
  - discriminate.
  - apply find_sub_none. reflexivity.
  - reflexivity.
  - reflexivity.
Defined.

(** Without a [Host] header, or with an empty one, the separator is the
    empty string, the second piece is one character, and the target is
    empty whatever the URL says. *)
Theorem no_host_empty_target P URL_pathname fuel request path :
  Request.method request <> "OPTIONS" ->
  truthy (Headers.get (Request.headers request) "Host") = false ->
  (2 <= String.length (fix_single_slash (Request.url request)))%nat ->
  URL_pathname (fix_single_slash (Request.url request)) = Some path ->
  startsWith path "/proxy/" = true ->
  handleRequest P URL_pathname fuel request =
  handleLiveWebProxy P fuel EmptyString request.
Proof.
  intros M H L Pn S. unfold handleRequest.
  apply String.eqb_neq in M. rewrite Pn, M, S.
  change (Headers.get (Request.headers request) "host") with
    (Headers.get (Request.headers request) "Host").
  assert (E : or_empty (Headers.get (Request.headers request) "Host") = EmptyString).
  { destruct (Headers.get (Request.headers request) "Host") as [[|c r]|];
      [reflexivity | discriminate H | reflexivity]. }
  rewrite E. unfold split_second.
  destruct (fix_single_slash (Request.url request)) as [|c1 [|c2 r]];
    simpl in L; try lia. reflexivity.
Qed.

Lemma no_host_empty_target_witness :
  handleRequest (constant_net ok_200) sample_pathname 1 no_host_get =
  handleLiveWebProxy (constant_net ok_200) 1 EmptyString no_host_get.
Proof.
  apply (no_host_empty_target (constant_net ok_200) sample_pathname 1 no_host_get
           "/proxy/https://site.test/a.html");
    [discriminate | reflexivity | simpl; lia | reflexivity | reflexivity].
Defined.

(** A request is answered without any call of [fetch] when its method
    is [OPTIONS] (by the [OPTIONS] responder, whatever the path), and
    when its path does not start with [/proxy/] (by a 404 whose body is
    the JSON text of [{error: "not found"}]). *)
Theorem unrouted_requests_answered_locally P URL_pathname fuel request path :
  URL_pathname (fix_single_slash (Request.url request)) = Some path ->
  (Request.method request = "OPTIONS" ->
   handleRequest P URL_pathname fuel request = ([], Returned (handleOptions request)))
  /\
  (Request.method request <> "OPTIONS" -> startsWith path "/proxy/" = false ->
   exists out,
     handleRequest P URL_pathname fuel request = ([], Returned out) /\
     Outgoing.status out = 404%Z /\
     Outgoing.headers out = [("Content-Type", "application/json")] /\
     Outgoing.body out =
       BodyText
         (String "{"
            (String dquote
               ("error" ++
                String dquote
                  (String ":" (String dquote ("not found" ++ String dquote "}"))))))).
Proof.
  intros Pn. unfold handleRequest. rewrite Pn. split.
  - intros ->. reflexivity.
  - intros M S. apply String.eqb_neq in M. rewrite M, S.
    eexists. split; [reflexivity|]. now repeat split.
Qed.

Lemma unrouted_requests_answered_locally_witness :
  handleRequest (constant_net ok_200) sample_pathname 1 options_preflight =
    ([], Returned (handleOptions options_preflight)) /\
  exists out,
    handleRequest (constant_net ok_200) sample_pathname 1 unrouted_get =
      ([], Returned out) /\
    Outgoing.status out = 404%Z.
Proof.
  split.
  - apply (proj1 (unrouted_requests_answered_locally (constant_net ok_200)
                    sample_pathname 1 options_preflight
                    "/proxy/https://site.test/a.html" eq_refl)). reflexivity.
  - destruct (proj2 (unrouted_requests_answered_locally (constant_net ok_200)
                       sample_pathname 1 unrouted_get "/favicon.ico" eq_refl)
                ltac:(discriminate) eq_refl) as [out [E [S _]]].
    exists out. split; [exact E | exact S].
Defined.


Lemma single_slash_here_spec (s scheme rest : string) :
  single_slash_here s = Some (scheme, rest) ->
  (scheme = "http:/" \/ scheme = "https:/") /\
  s = scheme ++ rest /\
  exists c r, rest = String c r /\ c <> "/"%char.
Proof.
  unfold single_slash_here.
  destruct (strip_prefix "http" s) as [r|] eqn:E; [|discriminate].
  apply strip_prefix_spec in E. subst s.
  destruct (strip_prefix "s:/" r) as [[|c r']|] eqn:E1.
  - discriminate.
  - apply strip_prefix_spec in E1. subst r.
    destruct (Ascii.eqb_spec c "/"%char) as [->|N]; [discriminate|].
    intros H. inversion H; subst. split; [now right|]. split; [reflexivity|].
    now exists c, r'.
  - destruct (strip_prefix ":/" r) as [[|c r']|] eqn:E2; try discriminate.
    apply strip_prefix_spec in E2. subst r.
    destruct (Ascii.eqb_spec c "/"%char) as [->|N]; [discriminate|].
    intros H. inversion H; subst. split; [now left|]. split; [reflexivity|].
    now exists c, r'.
Qed.

Lemma fix_single_slash_unfold (s : string) :
  fix_single_slash s =
  match single_slash_here s with
  | Some (scheme, rest) => scheme ++ "/" ++ rest
  | None =>
      match s with
      | EmptyString => EmptyString
      | String c r => String c (fix_single_slash r)
      end
  end.
Proof. destruct s; reflexivity. Qed.

(** The repair of the URL changes at most one place: either the URL is
    left as it is, or one slash is added after an [http:/] or [https:/]
    that a character other than a slash follows. *)
Theorem fix_single_slash_spec (s : string) :
  fix_single_slash s = s \/
  exists before scheme c r,
    (scheme = "http:/" \/ scheme = "https:/") /\ c <> "/"%char /\
    s = before ++ scheme ++ String c r /\
    fix_single_slash s = before ++ scheme ++ "/" ++ String c r.
Proof.
  induction s as [|x s IH]; rewrite fix_single_slash_unfold.
  - left. reflexivity.
  - destruct (single_slash_here (String x s)) as [[scheme rest]|] eqn:E.
    + right. apply single_slash_here_spec in E.
      destruct E as [S [E [c [r [-> N]]]]].
      exists EmptyString, scheme, c, r. now repeat split.
    + destruct IH as [->|[before [scheme [c [r [S [N [E' F]]]]]]]]; [now left|].
      right. exists (String x before), scheme, c, r.
      split; [exact S|]. split; [exact N|].
      split; [now rewrite E' | now rewrite F].
Qed.

Lemma outbound_headers_sanitized_witness :
  let call :=
    FetchCall.mk "https://site.test/a.html" "GET"
      [("accept-language", "en"); ("origin", "https://app.test");
       ("user-agent", "Replay/1.0")] None in
  let call2 :=
    FetchCall.mk "https://site.test/a.html" "GET"
      [("accept", "text/html,"); ("x-proxy-cookie", "a=1,");
       ("User-Agent", "Replay/1.0,"); ("Cookie", "a=1,")] None in
  In call (fst (handleLiveWebProxy (constant_net ok_200) 1
                  "https://site.test/a.html" browser_get)) /\
  Headers.has (FetchCall.headers call) "CF-Connecting-IP" = false /\
  Headers.has (FetchCall.headers call) "Host" = false /\
  Headers.has (FetchCall.headers call) "X-Proxy-User-Agent" = false /\
  Headers.get (FetchCall.headers call) "User-Agent" = Some "Replay/1.0" /\
  In call2 (fst (handleLiveWebProxy (constant_net ok_200) 1
                   "https://site.test/a.html" twice_values_get)) /\
  Headers.get (FetchCall.headers call2) "User-Agent" = Some "Replay/1.0,".
Proof.
  intros call call2.
  assert (I : In call (fst (handleLiveWebProxy (constant_net ok_200) 1
                              "https://site.test/a.html" browser_get)))
    by (left; reflexivity).
  assert (I2 : In call2 (fst (handleLiveWebProxy (constant_net ok_200) 1
                                "https://site.test/a.html" twice_values_get)))
    by (left; reflexivity).
  destruct (outbound_headers_sanitized (constant_net ok_200) 1
              "https://site.test/a.html" browser_get call I)
    as [C [_ [_ [H U]]]].
  destruct (U "Replay/1.0" eq_refl ltac:(discriminate)) as [U1 U2].
  destruct (outbound_headers_sanitized (constant_net ok_200) 1
              "https://site.test/a.html" twice_values_get call2 I2)
    as [_ [_ [_ [_ V]]]].
  destruct (V "Replay/1.0, " eq_refl ltac:(discriminate)) as [_ V2].
  split; [exact I|]. split; [apply C; reflexivity|].
  split; [exact H|]. split; [exact U1|]. split; [exact U2|].
  split; [exact I2 | exact V2].
Defined.

(** A non-empty [X-Proxy-Cookie] becomes the [Cookie] of every call of
    [fetch], as [headers.set] stores it (without leading and trailing
    white space), in place of any [Cookie] the request brought itself. *)
Theorem cookie_override P fuel proxyUrl request cookie call :
  Headers.get (Request.headers request) "X-Proxy-Cookie" = Some cookie ->
  cookie <> EmptyString ->
  In call (fst (handleLiveWebProxy P fuel proxyUrl request)) ->
  Headers.get (FetchCall.headers call) "Cookie" = Some (Headers.normalize cookie).
Proof.
  intros C N I.
  destruct (handleLiveWebProxy_calls P fuel proxyUrl request call I)
    as [proxyHeaders [Hp [_ [Hh _]]]].
  apply proxyHeadersOf_returned in Hp. destruct Hp as [headers [_ ->]].
  rewrite Hh. unfold withoutNoHttps, applyCookie.
  change (Headers.get (Request.headers request) "x-proxy-cookie") with
    (Headers.get (Request.headers request) "X-Proxy-Cookie").
  rewrite C, (truthy_Some cookie N). cbn [or_empty].
  destruct (noHttpsOf _); now get_through.
Qed.

Lemma cookie_override_witness :
  let call :=
    FetchCall.mk "https://site.test/a.html" "GET"
      [("cookie", "session=abc"); ("x-proxy-cookie", "session=abc")] None in
  let call2 :=
    FetchCall.mk "https://site.test/a.html" "GET"
      [("accept", "text/html,"); ("x-proxy-cookie", "a=1,");
       ("User-Agent", "Replay/1.0,"); ("Cookie", "a=1,")] None in
  In call (fst (handleLiveWebProxy (constant_net ok_200) 1
                  "https://site.test/a.html" cookie_override_get)) /\
  Headers.get (FetchCall.headers call) "Cookie" = Some "session=abc" /\
  In call2 (fst (handleLiveWebProxy (constant_net ok_200) 1
                   "https://site.test/a.html" twice_values_get)) /\
  Headers.get (FetchCall.headers call2) "Cookie" = Some "a=1,".
Proof.
  intros call call2.
  assert (I : In call (fst (handleLiveWebProxy (constant_net ok_200) 1
                              "https://site.test/a.html" cookie_override_get)))
    by (left; reflexivity).
  assert (I2 : In call2 (fst (handleLiveWebProxy (constant_net ok_200) 1
                                "https://site.test/a.html" twice_values_get)))
    by (left; reflexivity).
  split; [exact I|]. split; [|split; [exact I2|]].
  - apply (cookie_override (constant_net ok_200) 1 "https://site.test/a.html"
             cookie_override_get "session=abc" call eq_refl ltac:(discriminate) I).
  - apply (cookie_override (constant_net ok_200) 1 "https://site.test/a.html"
             twice_values_get "a=1, " call2 eq_refl ltac:(discriminate) I2).
Defined.


(** A non-empty [X-Proxy-Referer] that does not parse as a URL, or a
    target that does not, makes the handler throw before any call of
    [fetch]. *)
Theorem referrer_must_parse P fuel proxyUrl request referrer :
  Headers.get (Request.headers request) "X-Proxy-Referer" = Some referrer ->
  referrer <> EmptyString ->
  URL_origin P referrer = None \/ URL_origin P (normalizeProxyUrl proxyUrl) = None ->
  handleLiveWebProxy P fuel proxyUrl request = ([], Threw).
Proof.
  intros R N U.
  assert (A : applyReferrer P (normalizeProxyUrl proxyUrl) request
                (copyRequestHeaders request) = Threw).
  { unfold applyReferrer.
    change (Headers.get (Request.headers request) "x-proxy-referer") with
      (Headers.get (Request.headers request) "X-Proxy-Referer").
    rewrite R, (truthy_Some referrer N). cbn [or_empty].
    destruct U as [-> | U]; [reflexivity|].
    rewrite U. now destruct (URL_origin P referrer). }
  unfold handleLiveWebProxy, proxyHeadersOf. now rewrite A.
Qed.

Lemma referrer_must_parse_witness :
  handleLiveWebProxy (constant_net ok_200) 1 "https://site.test/a.html" bad_referer_get =
  ([], Threw).
Proof.
  apply (referrer_must_parse (constant_net ok_200) 1 "https://site.test/a.html"
           bad_referer_get "about blank" eq_refl);
    [discriminate | left; reflexivity].
Defined.
